(** * FootballPredictor (src/prediction_engine.py) in Rocq

    A shallow embedding of the prediction engine of footy-cast.  The engine
    is pure numeric Python: every value is a float (Python float or numpy
    float64).  Floats are modelled here as exact real numbers ([R]), so the
    results below are about the engine's arithmetic without floating-point
    rounding error; the explicit decimal rounding the code performs with
    [round(x, n)] is modelled exactly (round half to even on [x * 10^n],
    which is what numpy's [round] does).

    - [TeamMetrics]                 the [team_data] dictionaries
    - [calculate_team_strength]     FootballPredictor.calculate_team_strength
    - [predict_match_outcome_ha]    FootballPredictor.predict_match_outcome,
                                    with the local [home_advantage] as argument
    - [calculate_win_probabilities] FootballPredictor._calculate_win_probabilities
    - [predict_btts]                FootballPredictor._predict_btts
    - [predict_over_under]          FootballPredictor._predict_over_under
    - [predict_scorelines]          FootballPredictor._predict_scorelines
    - [poisson_pmf], [poisson_cdf]  scipy.stats.poisson.pmf / cdf *)

From Stdlib Require Import Reals Lra Lia ZArith List String Ascii Sorting.Permutation
  Sorting.Sorted DecimalString.
Import ListNotations.
Open Scope R_scope.
Open Scope string_scope.

(** ** Numeric primitives *)

(** [round(x)] to the nearest integer, ties to even (numpy's [rint]). *)
Definition rint (y : R) : Z :=
  let f := Int_part y in
  let d := y - IZR f in
  if Rlt_dec d (1/2) then f
  else if Rlt_dec (1/2) d then (f + 1)%Z
  else if Z.even f then f else (f + 1)%Z.

(** [round(x, n)] on a numpy float64: [rint(x * 10**n) / 10**n]. *)
Definition py_round (x : R) (n : nat) : R :=
  IZR (rint (x * 10 ^ n)) / 10 ^ n.

(** [stats.poisson.pmf(k, mu)]. *)
Definition poisson_pmf (k : nat) (mu : R) : R :=
  exp (- mu) * mu ^ k / INR (fact k).

Definition sumR (l : list R) : R := fold_right Rplus 0 l.

(** [stats.poisson.cdf(x, mu)]: the mass of [0 .. floor x], and 0 below 0. *)
Definition poisson_cdf (x : R) (mu : R) : R :=
  if Rlt_dec x 0 then 0
  else sumR (map (fun i => poisson_pmf i mu) (seq 0 (S (Z.to_nat (Int_part x))))).

(** [f'{n}'] for a Python int [n >= 0]. *)
Definition string_of_nat (n : nat) : string :=
  NilZero.string_of_uint (Nat.to_uint n).

(** The cells [(home_goals, away_goals)] visited by the nested loops
    [for home_goals in range(n): for away_goals in range(n):], in order. *)
Definition grid (n : nat) : list (nat * nat) :=
  flat_map (fun h => map (fun a => (h, a)) (seq 0 n)) (seq 0 n).

(** ** Data model *)

(** The [team_data] dictionary: the nine statistics entered per team. *)
Record TeamMetrics := mkTeamMetrics {
  xg : R;
  total_shots : R;
  shots_on_target : R;
  xgot : R;
  xa : R;
  passes_rate : R;
  tackles_rate : R;
  ball_recoveries : R;
  xgot_conceded : R
}.

(** Records the engine is meant for: every statistic non-negative. *)
Definition valid_metrics (t : TeamMetrics) : Prop :=
  0 <= xg t /\ 0 <= total_shots t /\ 0 <= shots_on_target t /\ 0 <= xgot t /\
  0 <= xa t /\ 0 <= passes_rate t /\ 0 <= tackles_rate t /\
  0 <= ball_recoveries t /\ 0 <= xgot_conceded t.

Record WinProbabilities := mkWinProbabilities {
  home_win : R;
  draw : R;
  away_win : R
}.

Record Btts := mkBtts {
  btts_prediction : string;
  btts_probability : R
}.

Record OverUnder := mkOverUnder {
  over : R;
  under : R;
  ou_prediction : string
}.

Record Scoreline := mkScoreline {
  scoreline : string;
  probability : R
}.

Record ExpectedGoals := mkExpectedGoals {
  eg_home : R;
  eg_away : R;
  eg_total : R
}.

Record MatchPrediction := mkMatchPrediction {
  win_probabilities : WinProbabilities;
  btts : Btts;
  over_under : list (string * OverUnder);
  scorelines : list Scoreline;
  expected_goals : ExpectedGoals
}.

(** ** Team strength *)

(** [self.offensive_weights] and [self.defensive_weights]. *)
Definition ow_xg : R := 0.30.
Definition ow_total_shots : R := 0.08.
Definition ow_shots_on_target : R := 0.12.
Definition ow_xgot : R := 0.22.
Definition ow_xa : R := 0.13.
Definition ow_passes_rate : R := 0.15.
Definition dw_xgot_conceded : R := 0.40.
Definition dw_tackles_rate : R := 0.30.
Definition dw_ball_recoveries : R := 0.30.

Definition calculate_team_strength (t : TeamMetrics) : R * R :=
  let offensive_score :=
    xg t * ow_xg +
    (total_shots t / 20) * ow_total_shots +
    (shots_on_target t / 10) * ow_shots_on_target +
    xgot t * ow_xgot +
    xa t * ow_xa +
    (passes_rate t / 100) * ow_passes_rate in
  let defensive_score :=
    (1 / (xgot_conceded t + 0.1)) * dw_xgot_conceded +
    (tackles_rate t / 100) * dw_tackles_rate +
    (ball_recoveries t / 100) * dw_ball_recoveries in
  (offensive_score, defensive_score).

(** ** Expected goals and the full prediction *)

Section Engine.

(** *** _calculate_win_probabilities *)

(** One iteration of the double loop: the joint probability of the cell
    goes to the bucket chosen by comparing the two goal counts. *)
Definition win_step (home_xg away_xg : R) (acc : R * R * R) (cell : nat * nat)
    : R * R * R :=
  let '(home_win_prob, draw_prob, away_win_prob) := acc in
  let '(home_goals, away_goals) := cell in
  let home_goal_prob := poisson_pmf home_goals home_xg in
  let away_goal_prob := poisson_pmf away_goals away_xg in
  let scoreline_prob := home_goal_prob * away_goal_prob in
  if Nat.ltb away_goals home_goals then
    (home_win_prob + scoreline_prob, draw_prob, away_win_prob)
  else if Nat.ltb home_goals away_goals then
    (home_win_prob, draw_prob, away_win_prob + scoreline_prob)
  else (home_win_prob, draw_prob + scoreline_prob, away_win_prob).

Definition calculate_win_probabilities (home_xg away_xg : R) : WinProbabilities :=
  let '(home_win_prob, draw_prob, away_win_prob) :=
    fold_left (win_step home_xg away_xg) (grid 8) (0, 0, 0) in
  let total := home_win_prob + draw_prob + away_win_prob in
  {| home_win := py_round ((home_win_prob / total) * 100) 1;
     draw := py_round ((draw_prob / total) * 100) 1;
     away_win := py_round ((away_win_prob / total) * 100) 1 |}.

(** *** _predict_btts *)

(** [min(1.15, 1 + (xgot_conceded - 1.0) * 0.1)]. *)
Definition def_factor (t : TeamMetrics) : R :=
  Rmin 1.15 (1 + (xgot_conceded t - 1.0) * 0.1).

Definition predict_btts (home_xg away_xg : R) (home_data away_data : TeamMetrics)
    : Btts :=
  let home_scoring_prob := 1 - poisson_pmf 0 home_xg in
  let away_scoring_prob := 1 - poisson_pmf 0 away_xg in
  let home_def_factor := def_factor home_data in
  let away_def_factor := def_factor away_data in
  let home_scoring_prob' := Rmin 0.99 (home_scoring_prob * away_def_factor) in
  let away_scoring_prob' := Rmin 0.99 (away_scoring_prob * home_def_factor) in
  let btts_prob := home_scoring_prob' * away_scoring_prob' in
  let btts_percentage := py_round (btts_prob * 100) 1 in
  {| btts_prediction := if Rge_dec btts_percentage 50 then "Yes" else "No";
     btts_probability := btts_percentage |}.

(** *** _predict_over_under *)

(** The thresholds [1.5, 2.5, 3.5], written in tenths. *)
Definition thresholds_tenths : list nat := [15; 25; 35]%nat.

Definition threshold_of (t : nat) : R := INR t / 10.

(** [f'{threshold}'] for these floats: ["1.5"], ["2.5"], ["3.5"]. *)
Definition threshold_key (t : nat) : string :=
  string_of_nat (t / 10) ++ "." ++ string_of_nat (t mod 10).

(** [1 - stats.poisson.cdf(threshold - 0.5, lambda_param)]. *)
Definition over_prob (t : nat) (total_xg : R) : R :=
  1 - poisson_cdf (threshold_of t - 0.5) total_xg.

Definition over_under_entry (total_xg : R) (t : nat) : string * OverUnder :=
  let over_percentage := py_round (over_prob t total_xg * 100) 1 in
  (threshold_key t,
   {| over := over_percentage;
      under := py_round (100 - over_percentage) 1;
      ou_prediction := if Rge_dec over_percentage 50 then "Over" else "Under" |}).

(** The [results] dictionary, in insertion order. *)
Definition predict_over_under (home_xg away_xg : R) : list (string * OverUnder) :=
  let total_xg := home_xg + away_xg in
  map (over_under_entry total_xg) thresholds_tenths.

(** *** _predict_scorelines *)

(** [list.sort(key=..., reverse=True)] is stable: elements with equal keys
    keep their order.  All stable sorts compute the same list, so insertion
    sort stands for CPython's Timsort. *)
Fixpoint insert_desc {A} (key : A -> R) (x : A) (l : list A) : list A :=
  match l with
  | [] => [x]
  | y :: ys => if Rle_dec (key y) (key x) then x :: y :: ys
               else y :: insert_desc key x ys
  end.

Fixpoint sort_desc {A} (key : A -> R) (l : list A) : list A :=
  match l with
  | [] => []
  | x :: xs => insert_desc key x (sort_desc key xs)
  end.

Definition format_scoreline (home_goals away_goals : nat) : string :=
  string_of_nat home_goals ++ "-" ++ string_of_nat away_goals.

Definition scoreline_probs (home_xg away_xg : R) : list Scoreline :=
  map (fun '(home_goals, away_goals) =>
         {| scoreline := format_scoreline home_goals away_goals;
            probability := poisson_pmf home_goals home_xg *
                           poisson_pmf away_goals away_xg |})
      (grid 6).

Definition predict_scorelines (home_xg away_xg : R) : list Scoreline :=
  let sorted := sort_desc probability (scoreline_probs home_xg away_xg) in
  let top_3 := firstn 3 sorted in
  map (fun s => {| scoreline := scoreline s;
                   probability := py_round (probability s * 100) 1 |}) top_3.

(** *** predict_match_outcome *)

(** The two expected-goal scalars, lines 67-74, for a given value of the
    local [home_advantage]. *)
Definition expected_goals_ha (home_advantage : R) (home_data away_data : TeamMetrics)
    : R * R :=
  let '(home_off, home_def) := calculate_team_strength home_data in
  let '(away_off, away_def) := calculate_team_strength away_data in
  (xg home_data * home_advantage * (1 / (away_def + 0.5)),
   xg away_data * (1 / (home_def + 0.5))).

Definition predict_match_outcome_ha (home_advantage : R)
    (home_data away_data : TeamMetrics) : MatchPrediction :=
  let '(home_expected_goals, away_expected_goals) :=
    expected_goals_ha home_advantage home_data away_data in
  {| win_probabilities :=
       calculate_win_probabilities home_expected_goals away_expected_goals;
     btts := predict_btts home_expected_goals away_expected_goals home_data away_data;
     over_under := predict_over_under home_expected_goals away_expected_goals;
     scorelines := predict_scorelines home_expected_goals away_expected_goals;
     expected_goals :=
       {| eg_home := py_round home_expected_goals 2;
          eg_away := py_round away_expected_goals 2;
          eg_total := py_round (home_expected_goals + away_expected_goals) 2 |} |}.

End Engine.

(** [home_advantage = 1.15]. *)
Definition home_advantage : R := 1.15.

Definition predict_match_outcome (home_data away_data : TeamMetrics) : MatchPrediction :=
  predict_match_outcome_ha home_advantage home_data away_data.

(** The defaults of the data-entry form (src/app.py). *)
Definition home_default : TeamMetrics :=
  mkTeamMetrics 1.5 12 5 1.3 1.0 75.0 70.0 50 1.0.
Definition away_default : TeamMetrics :=
  mkTeamMetrics 1.2 10 4 1.0 0.8 72.0 68.0 45 1.2.

(** ** Auxiliary views used in the statements *)

(** Joint probability of a cell, and its share of each bucket of
    [_calculate_win_probabilities]. *)
Definition joint (home_xg away_xg : R) (c : nat * nat) : R :=
  poisson_pmf (fst c) home_xg * poisson_pmf (snd c) away_xg.

Definition home_win_cell (home_xg away_xg : R) (c : nat * nat) : R :=
  if Nat.ltb (snd c) (fst c) then joint home_xg away_xg c else 0.

Definition draw_cell (home_xg away_xg : R) (c : nat * nat) : R :=
  if Nat.eqb (fst c) (snd c) then joint home_xg away_xg c else 0.

Definition away_win_cell (home_xg away_xg : R) (c : nat * nat) : R :=
  if Nat.ltb (fst c) (snd c) then joint home_xg away_xg c else 0.

(** [over_under[key]] on the returned dictionary. *)
Fixpoint ou_lookup (key : string) (l : list (string * OverUnder)) : option OverUnder :=
  match l with
  | [] => None
  | (k, e) :: l' => if String.eqb key k then Some e else ou_lookup key l'
  end.

(** Ascending lexicographic order on [(home_goals, away_goals)]. *)
Definition lex_lt (p q : nat * nat) : Prop :=
  (fst p < fst q)%nat \/ (fst p = fst q /\ (snd p < snd q)%nat).

(** [p] comes before [q] in a stable descending sort of the lexicographic
    enumeration: strictly larger key, or equal key and lexicographically
    earlier. *)
Definition ranks_before (key : nat * nat -> R) (p q : nat * nat) : Prop :=
  key q < key p \/ (key p = key q /\ lex_lt p q).

(** An entry of the result of [_predict_scorelines] for the cell [c]. *)
Definition scoreline_entry (home_xg away_xg : R) (c : nat * nat) : Scoreline :=
  {| scoreline := format_scoreline (fst c) (snd c);
     probability := py_round (joint home_xg away_xg c * 100) 1 |}.

(** ** The results page (src/app.py, main) *)

Inductive Outcome := HomeWin | Draw | AwayWin.

(** [max_prob = max(home_win, draw, away_win)] and the branch choosing the
    outcome text: home first, then draw, else away. *)
Definition most_likely_outcome (w : WinProbabilities) : Outcome * R :=
  let max_prob := Rmax (Rmax (home_win w) (draw w)) (away_win w) in
  if Req_EM_T max_prob (home_win w) then (HomeWin, max_prob)
  else if Req_EM_T max_prob (draw w) then (Draw, max_prob)
  else (AwayWin, max_prob).

(** The value displayed next to an outcome. *)
Definition outcome_value (w : WinProbabilities) (o : Outcome) : R :=
  match o with
  | HomeWin => home_win w
  | Draw => draw w
  | AwayWin => away_win w
  end.

(** ** Sanity checks of the enumerations *)

Example grid_ok : List.length (grid 8) = 64%nat /\ firstn 3 (grid 6) = [(0,0);(0,1);(0,2)]%nat.
Proof. split; reflexivity. Qed.

Example keys_ok : map threshold_key thresholds_tenths = ["1.5"; "2.5"; "3.5"].
Proof. reflexivity. Qed.

(** ** Rounding *)

Lemma Int_part_bounds (y : R) : IZR (Int_part y) <= y < IZR (Int_part y) + 1.
Proof. destruct (base_Int_part y); lra. Qed.

Lemma Int_part_unique (z : Z) (y : R) : IZR z <= y < IZR z + 1 -> Int_part y = z.
Proof.
  intros [H1 H2]. unfold Int_part.
  rewrite <- (tech_up y (z + 1)); [lia | rewrite plus_IZR; lra | rewrite plus_IZR; lra].
Qed.

Lemma rint_err (y : R) : IZR (rint y) - 1/2 <= y <= IZR (rint y) + 1/2.
Proof.
  pose proof (Int_part_bounds y) as [H1 H2]. unfold rint.
  destruct (Rlt_dec _ _); [lra|].
  destruct (Rlt_dec _ _); [rewrite plus_IZR; lra|].
  destruct (Z.even _); [lra | rewrite plus_IZR; lra].
Qed.

Lemma rint_IZR (z : Z) : rint (IZR z) = z.
Proof.
  unfold rint. rewrite (Int_part_unique z (IZR z)) by lra.
  destruct (Rlt_dec _ _); [reflexivity | lra].
Qed.

Lemma rint_mono (x y : R) : x <= y -> (rint x <= rint y)%Z.
Proof.
  intros Hxy. destruct (Req_dec x y) as [<-|Hne]; [lia|].
  pose proof (rint_err x). pose proof (rint_err y).
  assert (IZR (rint x) < IZR (rint y + 1)) as Hlt by (rewrite plus_IZR; lra).
  apply lt_IZR in Hlt. lia.
Qed.

Lemma py_round1_eq (x : R) : py_round x 1 = IZR (rint (x * 10)) / 10.
Proof. unfold py_round. simpl. rewrite Rmult_1_r. reflexivity. Qed.

Lemma py_round2_eq (x : R) : py_round x 2 = IZR (rint (x * 100)) / 100.
Proof. unfold py_round. simpl. replace (10 * (10 * 1)) with 100 by lra. reflexivity. Qed.

(** Rounding to one decimal maps [[lo/10, hi/10]] into itself. *)
Lemma py_round1_range (lo hi : Z) (x : R) :
  IZR lo / 10 <= x <= IZR hi / 10 -> IZR lo / 10 <= py_round x 1 <= IZR hi / 10.
Proof.
  intros [H1 H2]. rewrite py_round1_eq.
  assert (IZR lo <= x * 10) by lra. assert (x * 10 <= IZR hi) by lra.
  pose proof (rint_mono _ _ H) as Hlo. pose proof (rint_mono _ _ H0) as Hhi.
  rewrite rint_IZR in Hlo, Hhi. apply IZR_le in Hlo. apply IZR_le in Hhi. lra.
Qed.

Lemma py_round1_mono (x y : R) : x <= y -> py_round x 1 <= py_round y 1.
Proof.
  intros H. rewrite !py_round1_eq.
  assert (x * 10 <= y * 10) as H' by lra. apply rint_mono, IZR_le in H'. lra.
Qed.

(** A value with one decimal is left alone by [round(x, 1)]. *)
Lemma py_round1_tenths (z : Z) : py_round (IZR z / 10) 1 = IZR z / 10.
Proof.
  rewrite py_round1_eq. replace (IZR z / 10 * 10) with (IZR z) by field.
  rewrite rint_IZR. reflexivity.
Qed.

Lemma py_round1_is_tenths (x : R) : exists z, py_round x 1 = IZR z / 10.
Proof. rewrite py_round1_eq. eauto. Qed.

Lemma py_round1_err (x : R) : x - 0.05 <= py_round x 1 <= x + 0.05.
Proof. rewrite py_round1_eq. pose proof (rint_err (x * 10)). lra. Qed.

(** ** Poisson masses and finite sums *)

Lemma poisson_pmf_nonneg (k : nat) (mu : R) : 0 <= mu -> 0 <= poisson_pmf k mu.
Proof.
  intros H. unfold poisson_pmf. pose proof (exp_pos (- mu)).
  pose proof (INR_fact_lt_0 k). pose proof (pow_le mu k H).
  apply Rmult_le_pos; [apply Rmult_le_pos; lra | left; apply Rinv_0_lt_compat; lra].
Qed.

Lemma poisson_pmf_0 (mu : R) : poisson_pmf 0 mu = exp (- mu).
Proof. unfold poisson_pmf. simpl. field. Qed.

Lemma sumR_app (l1 l2 : list R) : sumR (l1 ++ l2) = sumR l1 + sumR l2.
Proof. induction l1; simpl; [ring | rewrite IHl1; ring]. Qed.

Lemma sumR_map_plus {A} (f g : A -> R) (l : list A) :
  sumR (map (fun x => f x + g x) l) = sumR (map f l) + sumR (map g l).
Proof. induction l; simpl; [ring | rewrite IHl; ring]. Qed.

Lemma sumR_map_ext {A} (f g : A -> R) (l : list A) :
  (forall x, In x l -> f x = g x) -> sumR (map f l) = sumR (map g l).
Proof.
  induction l; simpl; intros H; [reflexivity|].
  rewrite H, IHl; auto.
Qed.

Lemma sumR_nonneg {A} (f : A -> R) (l : list A) :
  (forall x, In x l -> 0 <= f x) -> 0 <= sumR (map f l).
Proof.
  induction l; simpl; intros H; [lra|].
  pose proof (H a (or_introl eq_refl)). pose proof (IHl (fun x Hx => H x (or_intror Hx))).
  lra.
Qed.

Lemma sumR_ge_member {A} (f : A -> R) (l : list A) (x : A) :
  In x l -> (forall y, In y l -> 0 <= f y) -> f x <= sumR (map f l).
Proof.
  induction l as [|a l IH]; simpl; intros Hin H; [contradiction|].
  destruct Hin as [<-|Hin].
  - pose proof (sumR_nonneg f l (fun y Hy => H y (or_intror Hy))). lra.
  - pose proof (H a (or_introl eq_refl)). pose proof (IH Hin (fun y Hy => H y (or_intror Hy))).
    lra.
Qed.

Lemma round3_sum (a b c : R) :
  a + b + c = 100 ->
  Rabs (py_round a 1 + py_round b 1 + py_round c 1 - 100) <= 0.1.
Proof.
  intros Hsum. rewrite !py_round1_eq.
  pose proof (rint_err (a * 10)). pose proof (rint_err (b * 10)).
  pose proof (rint_err (c * 10)).
  set (za := rint (a * 10)) in *. set (zb := rint (b * 10)) in *.
  set (zc := rint (c * 10)) in *.
  assert (IZR (za + zb + zc) < IZR 1002) as Hu by (rewrite !plus_IZR; lra).
  assert (IZR 998 < IZR (za + zb + zc)) as Hl by (rewrite !plus_IZR; lra).
  apply lt_IZR in Hu, Hl.
  assert (IZR 999 <= IZR (za + zb + zc) <= IZR 1001) as [Hs1 Hs2]
    by (split; apply IZR_le; lia).
  rewrite !plus_IZR in Hs1, Hs2.
  apply Rabs_le. lra.
Qed.

(** ** The win/draw/loss loop *)

Lemma win_fold (hx ax : R) (l : list (nat * nat)) (x y z : R) :
  fold_left (win_step hx ax) l (x, y, z) =
  (x + sumR (map (home_win_cell hx ax) l),
   y + sumR (map (draw_cell hx ax) l),
   z + sumR (map (away_win_cell hx ax) l)).
Proof.
  revert x y z. induction l as [|[h a] l IH]; intros x y z; simpl.
  - f_equal; [f_equal|]; ring.
  - unfold home_win_cell at 1, draw_cell at 1, away_win_cell at 1, joint at 1 2 3.
    simpl fst; simpl snd.
    destruct (Nat.ltb a h) eqn:E1; [|destruct (Nat.ltb h a) eqn:E2].
    + apply Nat.ltb_lt in E1.
      assert (Nat.ltb h a = false) as -> by (apply Nat.ltb_ge; lia).
      assert (Nat.eqb h a = false) as -> by (apply Nat.eqb_neq; lia).
      rewrite IH. f_equal; [f_equal|]; ring.
    + apply Nat.ltb_lt in E2.
      assert (Nat.eqb h a = false) as -> by (apply Nat.eqb_neq; lia).
      rewrite IH. f_equal; [f_equal|]; ring.
    + apply Nat.ltb_ge in E1. apply Nat.ltb_ge in E2.
      assert (Nat.eqb h a = true) as -> by (apply Nat.eqb_eq; lia).
      rewrite IH. f_equal; [f_equal|]; ring.
Qed.

Lemma calculate_win_probabilities_eq (hx ax : R) :
  calculate_win_probabilities hx ax =
  let HW := sumR (map (home_win_cell hx ax) (grid 8)) in
  let DR := sumR (map (draw_cell hx ax) (grid 8)) in
  let AW := sumR (map (away_win_cell hx ax) (grid 8)) in
  let T := HW + DR + AW in
  {| home_win := py_round (HW / T * 100) 1;
     draw := py_round (DR / T * 100) 1;
     away_win := py_round (AW / T * 100) 1 |}.
Proof.
  unfold calculate_win_probabilities. rewrite win_fold.
  rewrite !Rplus_0_l. reflexivity.
Qed.

Lemma cells_partition (hx ax : R) (c : nat * nat) :
  home_win_cell hx ax c + draw_cell hx ax c + away_win_cell hx ax c = joint hx ax c.
Proof.
  destruct c as [h a]. unfold home_win_cell, draw_cell, away_win_cell; simpl.
  destruct (Nat.ltb a h) eqn:E1; [|destruct (Nat.ltb h a) eqn:E2].
  - apply Nat.ltb_lt in E1.
    assert (Nat.ltb h a = false) as -> by (apply Nat.ltb_ge; lia).
    assert (Nat.eqb h a = false) as -> by (apply Nat.eqb_neq; lia). ring.
  - apply Nat.ltb_lt in E2.
    assert (Nat.eqb h a = false) as -> by (apply Nat.eqb_neq; lia). ring.
  - apply Nat.ltb_ge in E1. apply Nat.ltb_ge in E2.
    assert (Nat.eqb h a = true) as -> by (apply Nat.eqb_eq; lia). ring.
Qed.

Lemma joint_nonneg (hx ax : R) (c : nat * nat) :
  0 <= hx -> 0 <= ax -> 0 <= joint hx ax c.
Proof.
  intros Hh Ha. unfold joint.
  apply Rmult_le_pos; apply poisson_pmf_nonneg; assumption.
Qed.

Lemma cell_nonneg (hx ax : R) (c : nat * nat) :
  0 <= hx -> 0 <= ax ->
  0 <= home_win_cell hx ax c /\ 0 <= draw_cell hx ax c /\ 0 <= away_win_cell hx ax c.
Proof.
  intros Hh Ha. pose proof (joint_nonneg hx ax c Hh Ha).
  unfold home_win_cell, draw_cell, away_win_cell.
  repeat split; destruct (Nat.ltb _ _) || destruct (Nat.eqb _ _); lra.
Qed.

Lemma win_total_pos (hx ax : R) :
  0 <= hx -> 0 <= ax ->
  0 < sumR (map (home_win_cell hx ax) (grid 8)) + sumR (map (draw_cell hx ax) (grid 8))
      + sumR (map (away_win_cell hx ax) (grid 8)).
Proof.
  intros Hh Ha.
  rewrite <- !sumR_map_plus.
  rewrite (sumR_map_ext _ (joint hx ax)) by (intros; apply cells_partition).
  eapply Rlt_le_trans; [|apply (sumR_ge_member _ _ (0, 0)%nat)].
  - unfold joint; simpl. rewrite !poisson_pmf_0.
    apply Rmult_lt_0_compat; apply exp_pos.
  - simpl; auto.
  - intros; apply joint_nonneg; assumption.
Qed.

(** ** Over/under *)

Lemma py_round1_complement (x : R) :
  py_round (100 - py_round x 1) 1 = 100 - py_round x 1.
Proof.
  destruct (py_round1_is_tenths x) as [z ->].
  replace (100 - IZR z / 10) with (IZR (1000 - z) / 10)
    by (rewrite minus_IZR; field).
  apply py_round1_tenths.
Qed.

(** [threshold - 0.5] is the integer [t / 10] for the three thresholds, so
    the CDF there is the mass of [0 .. t / 10]. *)
Lemma poisson_cdf_threshold (t : nat) (mu : R) :
  In t thresholds_tenths ->
  poisson_cdf (threshold_of t - 0.5) mu =
  sumR (map (fun i => poisson_pmf i mu) (seq 0 (S (t / 10)))).
Proof.
  intros Ht. unfold poisson_cdf, threshold_of.
  assert (INR t / 10 - 0.5 = IZR (Z.of_nat (t / 10))) as E.
  { simpl in Ht. rewrite <- INR_IZR_INZ.
    destruct Ht as [<-|[<-|[<-|[]]]]; simpl; lra. }
  rewrite E, (Int_part_unique (Z.of_nat (t / 10))) by lra.
  rewrite Nat2Z.id.
  destruct (Rlt_dec _ _) as [Hn|]; [|reflexivity].
  exfalso. pose proof (pos_INR (t / 10)). rewrite INR_IZR_INZ in *. lra.
Qed.

Lemma over_prob_expand (mu : R) :
  over_prob 15 mu = 1 - (poisson_pmf 0 mu + poisson_pmf 1 mu) /\
  over_prob 25 mu = 1 - (poisson_pmf 0 mu + poisson_pmf 1 mu + poisson_pmf 2 mu) /\
  over_prob 35 mu = 1 - (poisson_pmf 0 mu + poisson_pmf 1 mu + poisson_pmf 2 mu
                         + poisson_pmf 3 mu).
Proof.
  unfold over_prob.
  rewrite !poisson_cdf_threshold by (simpl; tauto).
  simpl. repeat split; ring.
Qed.

Lemma poisson_pmf_pos (k : nat) (mu : R) : 0 < mu -> 0 < poisson_pmf k mu.
Proof.
  intros H. unfold poisson_pmf. pose proof (exp_pos (- mu)).
  pose proof (INR_fact_lt_0 k). pose proof (pow_lt mu k H).
  apply Rmult_lt_0_compat; [apply Rmult_lt_0_compat; lra | apply Rinv_0_lt_compat; lra].
Qed.

Lemma poisson_pmf_zero_rate (k : nat) : poisson_pmf k 0 = if Nat.eqb k 0 then 1 else 0.
Proof.
  unfold poisson_pmf. rewrite Ropp_0, exp_0.
  destruct k as [|k]; [simpl; field|].
  rewrite pow_i by lia. simpl Nat.eqb. unfold Rdiv. ring.
Qed.

Lemma over_under_lookup (hx ax : R) :
  ou_lookup "1.5" (predict_over_under hx ax) = Some (snd (over_under_entry (hx + ax) 15)) /\
  ou_lookup "2.5" (predict_over_under hx ax) = Some (snd (over_under_entry (hx + ax) 25)) /\
  ou_lookup "3.5" (predict_over_under hx ax) = Some (snd (over_under_entry (hx + ax) 35)).
Proof. repeat split; reflexivity. Qed.

(** ** Expected goals and BTTS *)

Lemma exp_neg_le_1 (mu : R) : 0 <= mu -> exp (- mu) <= 1.
Proof.
  intros H. destruct (Req_dec mu 0) as [->|Hn].
  - rewrite Ropp_0, exp_0. lra.
  - rewrite <- exp_0. left. apply exp_increasing. lra.
Qed.

Lemma def_factor_bounds (t : TeamMetrics) :
  0 <= xgot_conceded t -> 0.9 <= def_factor t <= 1.15.
Proof.
  intros H. unfold def_factor, Rmin. destruct (Rle_dec _ _); lra.
Qed.

Lemma defensive_score_pos (t : TeamMetrics) :
  valid_metrics t -> 0 < snd (calculate_team_strength t).
Proof.
  intros (_ & _ & _ & _ & _ & _ & Ht & Hb & Hc). simpl.
  unfold dw_xgot_conceded, dw_tackles_rate, dw_ball_recoveries.
  assert (0 < 1 / (xgot_conceded t + 0.1)).
  { unfold Rdiv. rewrite Rmult_1_l. apply Rinv_0_lt_compat. lra. }
  lra.
Qed.

Lemma expected_goals_nonneg (ha : R) (h a : TeamMetrics) :
  0 <= ha -> valid_metrics h -> valid_metrics a ->
  0 <= fst (expected_goals_ha ha h a) /\ 0 <= snd (expected_goals_ha ha h a).
Proof.
  intros Hha Hh Ha.
  pose proof (defensive_score_pos h Hh). pose proof (defensive_score_pos a Ha).
  pose proof (proj1 Hh) as Hxh. pose proof (proj1 Ha) as Hxa.
  unfold expected_goals_ha.
  destruct (calculate_team_strength h) as [ho hd], (calculate_team_strength a) as [ao ad].
  simpl in *.
  assert (0 < 1 / (ad + 0.5)) by (unfold Rdiv; rewrite Rmult_1_l; apply Rinv_0_lt_compat; lra).
  assert (0 < 1 / (hd + 0.5)) by (unfold Rdiv; rewrite Rmult_1_l; apply Rinv_0_lt_compat; lra).
  split; repeat apply Rmult_le_pos; lra.
Qed.

Lemma predict_match_outcome_unfold (h a : TeamMetrics) :
  predict_match_outcome h a =
  let hx := fst (expected_goals_ha home_advantage h a) in
  let ax := snd (expected_goals_ha home_advantage h a) in
  {| win_probabilities := calculate_win_probabilities hx ax;
     btts := predict_btts hx ax h a;
     over_under := predict_over_under hx ax;
     scorelines := predict_scorelines hx ax;
     expected_goals :=
       {| eg_home := py_round hx 2; eg_away := py_round ax 2;
          eg_total := py_round (hx + ax) 2 |} |}.
Proof.
  unfold predict_match_outcome, predict_match_outcome_ha.
  destruct (expected_goals_ha home_advantage h a). reflexivity.
Qed.

Lemma adjusted_scoring_bounds (mu f : R) :
  0 <= mu -> 0.9 <= f <= 1.15 -> 0 <= Rmin 0.99 ((1 - poisson_pmf 0 mu) * f) <= 0.99.
Proof.
  intros Hmu Hf. rewrite poisson_pmf_0.
  pose proof (exp_neg_le_1 mu Hmu). pose proof (exp_pos (- mu)).
  assert (0 <= (1 - exp (- mu)) * f) by (apply Rmult_le_pos; lra).
  unfold Rmin. destruct (Rle_dec _ _); lra.
Qed.

(** A percentage of at most [98.01] rounds to at most [98.0]. *)
Lemma py_round1_le_98 (x : R) : 0 <= x <= 98.01 -> 0 <= py_round x 1 <= 98.01.
Proof.
  intros [H1 H2]. rewrite py_round1_eq.
  pose proof (rint_err (x * 10)).
  assert (IZR (rint (x * 10)) < IZR 981) as Hu by lra.
  assert (IZR (-1) < IZR (rint (x * 10))) as Hl by lra.
  apply lt_IZR in Hu, Hl.
  assert (IZR 0 <= IZR (rint (x * 10)) <= IZR 980) as [Hs1 Hs2]
    by (split; apply IZR_le; lia).
  lra.
Qed.

(** ** Zero rates *)

Lemma joint_zero_rates (c : nat * nat) :
  joint 0 0 c = if (Nat.eqb (fst c) 0 && Nat.eqb (snd c) 0)%bool then 1 else 0.
Proof.
  unfold joint. rewrite !poisson_pmf_zero_rate.
  destruct (Nat.eqb (fst c) 0), (Nat.eqb (snd c) 0); simpl; ring.
Qed.

Lemma win_buckets_zero_rates :
  sumR (map (home_win_cell 0 0) (grid 8)) = 0 /\
  sumR (map (draw_cell 0 0) (grid 8)) = 1 /\
  sumR (map (away_win_cell 0 0) (grid 8)) = 0.
Proof.
  set (z := fun c : nat * nat =>
         if (Nat.eqb (fst c) 0 && Nat.eqb (snd c) 0)%bool then 1 else 0).
  rewrite (sumR_map_ext (home_win_cell 0 0)
             (fun c => if Nat.ltb (snd c) (fst c) then z c else 0))
    by (intros c _; unfold home_win_cell; rewrite joint_zero_rates; reflexivity).
  rewrite (sumR_map_ext (draw_cell 0 0)
             (fun c => if Nat.eqb (fst c) (snd c) then z c else 0))
    by (intros c _; unfold draw_cell; rewrite joint_zero_rates; reflexivity).
  rewrite (sumR_map_ext (away_win_cell 0 0)
             (fun c => if Nat.ltb (fst c) (snd c) then z c else 0))
    by (intros c _; unfold away_win_cell; rewrite joint_zero_rates; reflexivity).
  unfold z, grid. simpl. repeat split; lra.
Qed.

Lemma expected_goals_ha_eq (ha : R) (h a : TeamMetrics) :
  expected_goals_ha ha h a =
  (xg h * ha * (1 / (snd (calculate_team_strength a) + 0.5)),
   xg a * (1 / (snd (calculate_team_strength h) + 0.5))).
Proof.
  unfold expected_goals_ha.
  destruct (calculate_team_strength h), (calculate_team_strength a). reflexivity.
Qed.

Lemma rint_near (z : Z) (y : R) : IZR z - 1/2 < y < IZR z + 1/2 -> rint y = z.
Proof.
  intros [H1 H2]. pose proof (rint_err y).
  assert (IZR (rint y) < IZR (z + 1)) as Hu by (rewrite plus_IZR; lra).
  assert (IZR (z - 1) < IZR (rint y)) as Hl by (rewrite minus_IZR; lra).
  apply lt_IZR in Hu, Hl. lia.
Qed.

(** ** Swapping home and away *)

Lemma sumR_map_zero {A} (l : list A) : sumR (map (fun _ => 0) l) = 0.
Proof. induction l; simpl; [reflexivity | rewrite IHl; ring]. Qed.

Lemma sumR_flat_map {A B} (f : A * B -> R) (L1 : list A) (L2 : list B) :
  sumR (map f (flat_map (fun h => map (fun a => (h, a)) L2) L1)) =
  sumR (map (fun h => sumR (map (fun a => f (h, a)) L2)) L1).
Proof.
  induction L1 as [|h L1 IH]; simpl; [reflexivity|].
  rewrite map_app, sumR_app, map_map, IH. reflexivity.
Qed.

Lemma sumR_swap {A B} (g : A -> B -> R) (L1 : list A) (L2 : list B) :
  sumR (map (fun h => sumR (map (fun a => g h a) L2)) L1) =
  sumR (map (fun a => sumR (map (fun h => g h a) L1)) L2).
Proof.
  induction L1 as [|h L1 IH]; simpl.
  - symmetry. apply sumR_map_zero.
  - rewrite IH. symmetry. apply (sumR_map_plus (fun a => g h a)).
Qed.

Lemma grid_swap (f : nat * nat -> R) (n : nat) :
  sumR (map f (grid n)) = sumR (map (fun c => f (snd c, fst c)) (grid n)).
Proof.
  unfold grid. rewrite !sumR_flat_map, sumR_swap. reflexivity.
Qed.

Lemma win_probabilities_swap (x y : R) :
  home_win (calculate_win_probabilities x y) = away_win (calculate_win_probabilities y x) /\
  away_win (calculate_win_probabilities x y) = home_win (calculate_win_probabilities y x) /\
  draw (calculate_win_probabilities x y) = draw (calculate_win_probabilities y x).
Proof.
  assert (sumR (map (away_win_cell y x) (grid 8)) = sumR (map (home_win_cell x y) (grid 8)))
    as A.
  { rewrite grid_swap. apply sumR_map_ext. intros [h a] _.
    unfold away_win_cell, home_win_cell, joint; simpl.
    destruct (Nat.ltb a h); ring. }
  assert (sumR (map (home_win_cell y x) (grid 8)) = sumR (map (away_win_cell x y) (grid 8)))
    as B.
  { rewrite grid_swap. apply sumR_map_ext. intros [h a] _.
    unfold away_win_cell, home_win_cell, joint; simpl.
    destruct (Nat.ltb h a); ring. }
  assert (sumR (map (draw_cell y x) (grid 8)) = sumR (map (draw_cell x y) (grid 8)))
    as C.
  { rewrite grid_swap. apply sumR_map_ext. intros [h a] _.
    unfold draw_cell, joint; simpl. rewrite Nat.eqb_sym.
    destruct (Nat.eqb h a); ring. }
  rewrite !calculate_win_probabilities_eq. cbv zeta. cbn [home_win away_win draw].
  rewrite A, B, C.
  set (HW := sumR (map (home_win_cell x y) (grid 8))).
  set (DR := sumR (map (draw_cell x y) (grid 8))).
  set (AW := sumR (map (away_win_cell x y) (grid 8))).
  replace (AW + DR + HW) with (HW + DR + AW) by ring.
  repeat split; reflexivity.
Qed.

(** ** The stable sort *)

Section StableSort.

Context {A : Type}.

Lemma insert_desc_perm (key : A -> R) (x : A) (l : list A) :
  Permutation (x :: l) (insert_desc key x l).
Proof.
  induction l as [|y l IH]; simpl; [reflexivity|].
  destruct (Rle_dec _ _); [reflexivity|].
  rewrite perm_swap. constructor. exact IH.
Qed.

Lemma sort_desc_perm (key : A -> R) (l : list A) : Permutation l (sort_desc key l).
Proof.
  induction l as [|x l IH]; simpl; [reflexivity|].
  rewrite <- insert_desc_perm. constructor. exact IH.
Qed.

Lemma sort_desc_ext (k1 k2 : A -> R) (l : list A) :
  (forall x, k1 x = k2 x) -> sort_desc k1 l = sort_desc k2 l.
Proof.
  intros Hk. induction l as [|x l IH]; simpl; [reflexivity|].
  rewrite IH. generalize (sort_desc k2 l) as s.
  induction s as [|y s IHs]; simpl; [reflexivity|].
  rewrite !Hk, IHs. reflexivity.
Qed.

Lemma sort_desc_map {B} (key : B -> R) (f : A -> B) (l : list A) :
  sort_desc key (map f l) = map f (sort_desc (fun x => key (f x)) l).
Proof.
  induction l as [|x l IH]; simpl; [reflexivity|].
  rewrite IH. generalize (sort_desc (fun x => key (f x)) l) as s.
  induction s as [|y s IHs]; simpl; [reflexivity|].
  destruct (Rle_dec _ _); simpl; [reflexivity|]. rewrite IHs. reflexivity.
Qed.

Variable key : A -> R.
Variable lt : A -> A -> Prop.

Let before (x y : A) : Prop := key y < key x \/ (key x = key y /\ lt x y).

Lemma insert_desc_sorted (x : A) (s : list A) :
  Forall (lt x) s -> StronglySorted before s -> StronglySorted before (insert_desc key x s).
Proof.
  induction s as [|y s IH]; simpl; intros Hlt Hs.
  - constructor; constructor.
  - inversion Hs as [|? ? Hs' Hy]; subst. inversion Hlt as [|? ? Hxy Hlt']; subst.
    destruct (Rle_dec (key y) (key x)) as [Hle|Hgt].
    + constructor; [exact Hs|]. constructor.
      * unfold before. destruct (Req_dec (key x) (key y)); [right | left]; auto; lra.
      * rewrite Forall_forall in Hy, Hlt' |- *. intros z Hz.
        pose proof (Hy z Hz) as Hyz. pose proof (Hlt' z Hz).
        unfold before in *. destruct (Req_dec (key x) (key z)); [right | left]; auto.
        destruct Hyz as [|[]]; lra.
    + constructor; [apply IH; assumption|].
      apply Forall_forall. intros z Hz.
      apply (Permutation_in _ (Permutation_sym (insert_desc_perm key x s))) in Hz.
      destruct Hz as [<-|Hz].
      * left. lra.
      * rewrite Forall_forall in Hy. apply Hy, Hz.
Qed.

Lemma sort_desc_sorted (l : list A) :
  StronglySorted lt l -> StronglySorted before (sort_desc key l).
Proof.
  induction l as [|x l IH]; simpl; intros Hl; [constructor|].
  inversion Hl as [|? ? Hl' Hx]; subst.
  apply insert_desc_sorted; [|apply IH, Hl'].
  rewrite Forall_forall in Hx |- *. intros z Hz.
  apply Hx. apply (Permutation_in _ (Permutation_sym (sort_desc_perm key l))), Hz.
Qed.

End StableSort.

(** ** The scoreline grid *)

Lemma lex_lt_trans (p q r : nat * nat) : lex_lt p q -> lex_lt q r -> lex_lt p r.
Proof. unfold lex_lt. lia. Qed.

Lemma grid6_sorted : StronglySorted lex_lt (grid 6).
Proof.
  apply Sorted_StronglySorted; [exact lex_lt_trans|].
  unfold grid. simpl.
  repeat (apply Sorted_cons || apply Sorted_nil || apply HdRel_cons || apply HdRel_nil).
  all: unfold lex_lt; simpl; lia.
Qed.

Lemma in_grid (n : nat) (c : nat * nat) : In c (grid n) <-> (fst c < n /\ snd c < n)%nat.
Proof.
  destruct c as [h a]. unfold grid. rewrite in_flat_map. simpl. split.
  - intros [h' [Hh Ha]]. apply in_map_iff in Ha as [a' [E Ha]]. injection E as <- <-.
    apply in_seq in Hh, Ha. lia.
  - intros [Hh Ha]. exists h. split; [apply in_seq; lia|].
    apply in_map_iff. exists a. split; [reflexivity | apply in_seq; lia].
Qed.

(** ** Bounds on Poisson masses *)

Lemma exp_partial_sum_le (x : R) (n : nat) :
  0 <= x -> sum_f_R0 (fun i => / INR (fact i) * x ^ i) n <= exp x.
Proof.
  intros Hx. apply sum_incr.
  - unfold exp, projT1. destruct (exist_exp x) as [e He].
    unfold exp_in, infinite_sum in He. exact He.
  - intros i. apply Rmult_le_pos; [left; apply Rinv_0_lt_compat, INR_fact_lt_0|].
    apply pow_le, Hx.
Qed.

Lemma poisson_partial_sum (mu : R) (k : nat) :
  sumR (map (fun i => poisson_pmf i mu) (seq 0 (S k))) =
  exp (- mu) * sum_f_R0 (fun i => / INR (fact i) * mu ^ i) k.
Proof.
  induction k as [|k IH].
  - simpl. unfold poisson_pmf, Rdiv. simpl. rewrite !Rinv_1. ring.
  - rewrite seq_S, map_app, sumR_app, IH.
    change (sum_f_R0 ?f (S k)) with (sum_f_R0 f k + f (S k)). cbv beta.
    replace (0 + S k)%nat with (S k) by lia. simpl sumR.
    unfold poisson_pmf, Rdiv. ring.
Qed.

Lemma exp_neg_mul_exp (mu : R) : exp (- mu) * exp mu = 1.
Proof. rewrite <- exp_plus. replace (- mu + mu) with 0 by ring. apply exp_0. Qed.

Lemma poisson_cdf_le_1 (x mu : R) : 0 <= mu -> poisson_cdf x mu <= 1.
Proof.
  intros H. unfold poisson_cdf. destruct (Rlt_dec _ _); [lra|].
  rewrite poisson_partial_sum.
  pose proof (exp_partial_sum_le mu (Z.to_nat (Int_part x)) H).
  pose proof (exp_pos (- mu)). pose proof (exp_neg_mul_exp mu).
  apply Rle_trans with (exp (- mu) * exp mu); [|lra].
  apply Rmult_le_compat_l; lra.
Qed.

Lemma poisson_cdf_nonneg (x mu : R) : 0 <= mu -> 0 <= poisson_cdf x mu.
Proof.
  intros H. unfold poisson_cdf. destruct (Rlt_dec _ _); [lra|].
  apply sumR_nonneg. intros; apply poisson_pmf_nonneg, H.
Qed.

Lemma poisson_pmf_le_1 (k : nat) (mu : R) : 0 <= mu -> poisson_pmf k mu <= 1.
Proof.
  intros H.
  pose proof (poisson_cdf_le_1 (INR k) mu H) as Hc.
  unfold poisson_cdf in Hc. destruct (Rlt_dec _ _) as [Hn|]; [pose proof (pos_INR k); lra|].
  rewrite INR_IZR_INZ, (Int_part_unique (Z.of_nat k)) in Hc by lra.
  rewrite Nat2Z.id, seq_S, map_app, sumR_app in Hc. simpl in Hc.
  assert (0 <= sumR (map (fun i => poisson_pmf i mu) (seq 0 k))).
  { apply sumR_nonneg. intros; apply poisson_pmf_nonneg, H. }
  lra.
Qed.

Lemma py_round2_nonneg (x : R) : 0 <= x -> 0 <= py_round x 2.
Proof.
  intros H. rewrite py_round2_eq.
  assert (IZR 0 <= x * 100) as H' by lra.
  apply rint_mono in H'. rewrite rint_IZR in H'. apply IZR_le in H'. lra.
Qed.

(** The win/draw/loss values are percentages adding up to 100 within 0.1. *)
Lemma win_probabilities_bounds (hx ax : R) :
  0 <= hx -> 0 <= ax ->
  let w := calculate_win_probabilities hx ax in
  0 <= home_win w <= 100 /\ 0 <= draw w <= 100 /\ 0 <= away_win w <= 100 /\
  Rabs (home_win w + draw w + away_win w - 100) <= 0.1.
Proof.
  intros Hh Ha. rewrite calculate_win_probabilities_eq. cbv zeta. cbn [home_win draw away_win].
  pose proof (win_total_pos hx ax Hh Ha) as HT.
  set (HW := sumR (map (home_win_cell hx ax) (grid 8))) in *.
  set (DR := sumR (map (draw_cell hx ax) (grid 8))) in *.
  set (AW := sumR (map (away_win_cell hx ax) (grid 8))) in *.
  assert (0 <= HW /\ 0 <= DR /\ 0 <= AW) as (H1 & H2 & H3).
  { unfold HW, DR, AW; repeat split; apply sumR_nonneg; intros c _;
      pose proof (cell_nonneg hx ax c Hh Ha); tauto. }
  assert (forall X, 0 <= X -> X <= HW + DR + AW ->
            IZR 0 / 10 <= X / (HW + DR + AW) * 100 <= IZR 1000 / 10) as Hr.
  { intros X HX HXT. split.
    - apply Rle_trans with 0; [lra|].
      apply Rmult_le_pos; [apply Rmult_le_pos; [lra | left; apply Rinv_0_lt_compat; lra] | lra].
    - replace (IZR 1000 / 10) with ((HW + DR + AW) / (HW + DR + AW) * 100) by (field; lra).
      apply Rmult_le_compat_r; [lra|].
      apply Rmult_le_compat_r; [left; apply Rinv_0_lt_compat|]; lra. }
  pose proof (py_round1_range 0 1000 _ (Hr HW H1 ltac:(lra))) as R1.
  pose proof (py_round1_range 0 1000 _ (Hr DR H2 ltac:(lra))) as R2.
  pose proof (py_round1_range 0 1000 _ (Hr AW H3 ltac:(lra))) as R3.
  split; [lra|]. split; [lra|]. split; [lra|].
  apply round3_sum. field. lra.
Qed.

(** ** Claims *)

(** C2: for non-negative expected goals, [_calculate_win_probabilities]
    buckets the 8x8 grid [0..7] x [0..7] of joint Poisson probabilities by
    comparing the goal counts, normalises the three bucket sums by their
    total and rounds each percentage to one decimal; each value lies in
    [0, 100] and the three add up to 100 within 0.1. *)
Theorem calculate_win_probabilities_spec (hx ax : R) (Hh : 0 <= hx) (Ha : 0 <= ax) :
  let HW := sumR (map (home_win_cell hx ax) (grid 8)) in
  let DR := sumR (map (draw_cell hx ax) (grid 8)) in
  let AW := sumR (map (away_win_cell hx ax) (grid 8)) in
  let T := HW + DR + AW in
  let w := calculate_win_probabilities hx ax in
  w = {| home_win := py_round (HW / T * 100) 1;
         draw := py_round (DR / T * 100) 1;
         away_win := py_round (AW / T * 100) 1 |} /\
  0 <= home_win w <= 100 /\ 0 <= draw w <= 100 /\ 0 <= away_win w <= 100 /\
  Rabs (home_win w + draw w + away_win w - 100) <= 0.1.
Proof.
  intros HW DR AW T w.
  assert (w = {| home_win := py_round (HW / T * 100) 1;
                 draw := py_round (DR / T * 100) 1;
                 away_win := py_round (AW / T * 100) 1 |}) as Hw
    by apply calculate_win_probabilities_eq.
  pose proof (win_total_pos hx ax Hh Ha) as HT. fold HW DR AW T in HT.
  assert (0 <= HW /\ 0 <= DR /\ 0 <= AW) as (H1 & H2 & H3).
  { unfold HW, DR, AW; repeat split; apply sumR_nonneg; intros c _;
      pose proof (cell_nonneg hx ax c Hh Ha); tauto. }
  assert (forall X, 0 <= X -> X <= T -> IZR 0 / 10 <= X / T * 100 <= IZR 1000 / 10) as Hr.
  { intros X HX HXT. split.
    - apply Rle_trans with 0; [lra|].
      apply Rmult_le_pos; [apply Rmult_le_pos; [lra | left; apply Rinv_0_lt_compat; lra] | lra].
    - replace (IZR 1000 / 10) with (T / T * 100) by (field; lra).
      apply Rmult_le_compat_r; [lra|].
      apply Rmult_le_compat_r; [left; apply Rinv_0_lt_compat|]; lra. }
  pose proof (py_round1_range 0 1000 _ (Hr HW H1 ltac:(unfold T; lra))) as R1.
  pose proof (py_round1_range 0 1000 _ (Hr DR H2 ltac:(unfold T; lra))) as R2.
  pose proof (py_round1_range 0 1000 _ (Hr AW H3 ltac:(unfold T; lra))) as R3.
  rewrite Hw; simpl. split; [reflexivity|].
  split; [lra|]. split; [lra|]. split; [lra|].
  apply round3_sum. unfold T in *. field. lra.
Qed.

Lemma calculate_win_probabilities_spec_witness :
  (0 <= 1 /\ 0 <= 1) /\
  Rabs (home_win (calculate_win_probabilities 1 1) + draw (calculate_win_probabilities 1 1)
        + away_win (calculate_win_probabilities 1 1) - 100) <= 0.1.
Proof.
  split; [lra|].
  assert (0 <= 1) as H by lra.
  destruct (calculate_win_probabilities_spec 1 1 H H) as (_ & _ & _ & _ & Hs).
  exact Hs.
Defined.

(** C3: for every input, [_predict_over_under] has the entries "1.5",
    "2.5", "3.5", in this order; for each threshold [T] the over percentage
    is [1 - PoissonCDF(T - 0.5, home_xg + away_xg)] as a percentage rounded
    to one decimal, [under] is exactly [100 - over] (so [over + under = 100]
    exactly), and the label is "Over" exactly when [over >= 50], else
    "Under". *)
Theorem predict_over_under_spec (hx ax : R) :
  map fst (predict_over_under hx ax) = ["1.5"; "2.5"; "3.5"] /\
  forall key e, In (key, e) (predict_over_under hx ax) ->
  exists t, In t thresholds_tenths /\ key = threshold_key t /\
    over e = py_round ((1 - poisson_cdf (threshold_of t - 0.5) (hx + ax)) * 100) 1 /\
    under e = 100 - over e /\
    over e + under e = 100 /\
    (over e >= 50 -> ou_prediction e = "Over") /\
    (over e < 50 -> ou_prediction e = "Under").
Proof.
  split; [reflexivity|].
  intros key e Hin. unfold predict_over_under in Hin.
  apply in_map_iff in Hin as [t [Ht Hint]].
  unfold over_under_entry in Ht. injection Ht as <- <-.
  exists t. simpl. repeat split; try assumption.
  - apply py_round1_complement.
  - rewrite py_round1_complement. ring.
  - intros H. destruct (Rge_dec _ _); [reflexivity | contradiction].
  - intros H. destruct (Rge_dec _ _); [lra | reflexivity].
Qed.

(** C6, as stated: at [home_xg = away_xg = 0] the three over percentages
    are all [0.0], so they are not strictly decreasing. *)
Lemma over_thresholds_strict_counterexample :
  ~ (forall hx ax o1 o2 o3, 0 <= hx -> 0 <= ax ->
       ou_lookup "1.5" (predict_over_under hx ax) = Some o1 ->
       ou_lookup "2.5" (predict_over_under hx ax) = Some o2 ->
       ou_lookup "3.5" (predict_over_under hx ax) = Some o3 ->
       over o1 > over o2 /\ over o2 > over o3).
Proof.
  intros H.
  destruct (over_under_lookup 0 0) as (L1 & L2 & L3).
  assert (0 <= 0) as Z0 by lra.
  specialize (H 0 0 _ _ _ Z0 Z0 L1 L2 L3). simpl in H.
  destruct (over_prob_expand (0 + 0)) as (E1 & E2 & _).
  rewrite Rplus_0_r, !(poisson_pmf_zero_rate 0), !(poisson_pmf_zero_rate 1) in E1, E2.
  rewrite (poisson_pmf_zero_rate 2) in E2. simpl in E1, E2.
  destruct H as [H _]. rewrite Rplus_0_r, E1, E2 in H.
  replace ((1 - (1 + 0)) * 100) with (IZR 0 / 10) in H by lra.
  replace ((1 - (1 + 0 + 0)) * 100) with (IZR 0 / 10) in H by lra.
  rewrite py_round1_tenths in H. lra.
Qed.

(** C6 (amended): for a non-negative total rate the over percentages are
    non-increasing across the thresholds, over(1.5) >= over(2.5) >= over(3.5);
    the unrounded over probabilities decrease strictly when the rate is
    positive; and for [home_xg = away_xg = 3.0] the "1.5" prediction is
    "Over". *)
Theorem over_thresholds_monotone (hx ax : R) (H : 0 <= hx + ax) :
  (exists o1 o2 o3,
     ou_lookup "1.5" (predict_over_under hx ax) = Some o1 /\
     ou_lookup "2.5" (predict_over_under hx ax) = Some o2 /\
     ou_lookup "3.5" (predict_over_under hx ax) = Some o3 /\
     over o1 >= over o2 /\ over o2 >= over o3) /\
  (0 < hx + ax ->
     over_prob 15 (hx + ax) > over_prob 25 (hx + ax) /\
     over_prob 25 (hx + ax) > over_prob 35 (hx + ax)) /\
  (exists o, ou_lookup "1.5" (predict_over_under 3.0 3.0) = Some o /\
             ou_prediction o = "Over").
Proof.
  destruct (over_prob_expand (hx + ax)) as (E1 & E2 & E3).
  pose proof (poisson_pmf_nonneg 2 _ H). pose proof (poisson_pmf_nonneg 3 _ H).
  split; [|split].
  - destruct (over_under_lookup hx ax) as (L1 & L2 & L3).
    do 3 eexists. split; [exact L1|]. split; [exact L2|]. split; [exact L3|].
    simpl. split; apply Rle_ge, py_round1_mono; rewrite ?E1, ?E2, ?E3; lra.
  - intros Hp. pose proof (poisson_pmf_pos 2 _ Hp). pose proof (poisson_pmf_pos 3 _ Hp).
    rewrite E1, E2, E3. lra.
  - destruct (over_under_lookup 3.0 3.0) as (L1 & _ & _).
    eexists. split; [exact L1|]. simpl.
    destruct (over_prob_expand (3.0 + 3.0)) as (F1 & _ & _).
    assert (exp 6 >= 16) as H6.
    { replace 6 with (3 + 3) by lra. rewrite exp_plus.
      pose proof (exp_ineq1_le 3). nra. }
    assert (over_prob 15 (3.0 + 3.0) >= 0.5) as Ho.
    { rewrite F1. unfold poisson_pmf. simpl.
      replace (3.0 + 3.0) with 6 by lra. rewrite exp_Ropp.
      pose proof (exp_pos 6).
      assert (/ exp 6 <= / 16) by (apply Rinv_le_contravar; lra).
      set (e := / exp 6) in *. clearbody e. unfold Rdiv. rewrite Rinv_1, !Rmult_1_r. lra. }
    destruct (Rge_dec _ _) as [|Hn]; [reflexivity|].
    exfalso. apply Hn.
    pose proof (py_round1_range 500 1000 (over_prob 15 (3.0 + 3.0) * 100)) as Hr.
    assert (over_prob 15 (3.0 + 3.0) <= 1).
    { rewrite F1. pose proof (poisson_pmf_nonneg 0 (3.0 + 3.0)).
      pose proof (poisson_pmf_nonneg 1 (3.0 + 3.0)). lra. }
    lra.
Qed.

Lemma over_thresholds_monotone_witness :
  0 <= 1 + 1 /\
  exists o1 o2 o3,
     ou_lookup "1.5" (predict_over_under 1 1) = Some o1 /\
     ou_lookup "2.5" (predict_over_under 1 1) = Some o2 /\
     ou_lookup "3.5" (predict_over_under 1 1) = Some o3 /\
     over o1 >= over o2 /\ over o2 >= over o3.
Proof.
  assert (0 <= 1 + 1) as H by lra.
  split; [exact H|].
  exact (proj1 (over_thresholds_monotone 1 1 H)).
Defined.

(** C9: the BTTS defence factor [min(1.15, 1 + (xgot_conceded - 1.0) * 0.1)]
    has no lower clamp: for a non-negative [xgot_conceded] it lies in
    [0.9, 1.15], and below [1.0] it is strictly smaller than 1, so it lowers
    the opponent's scoring probability (by at most 10%). *)
Theorem def_factor_no_lower_clamp (t : TeamMetrics) :
  (0 <= xgot_conceded t -> 0.9 <= def_factor t <= 1.15) /\
  (xgot_conceded t < 1 -> def_factor t < 1).
Proof.
  split; [apply def_factor_bounds|].
  intros H. unfold def_factor, Rmin. destruct (Rle_dec _ _); lra.
Qed.

(** C5: for valid records, the BTTS percentage is the product of the two
    adjusted scoring probabilities [min(0.99, (1 - P(Poisson(xg) = 0)) *
    factor)], each team's factor coming from the opponent's
    [xgot_conceded], rounded to one decimal; it lies in [0, 98.01] and the
    label is "Yes" exactly when it is at least 50, else "No". *)
Theorem predict_btts_spec (h a : TeamMetrics)
    (Hh : valid_metrics h) (Ha : valid_metrics a) :
  let hx := fst (expected_goals_ha home_advantage h a) in
  let ax := snd (expected_goals_ha home_advantage h a) in
  let b := btts (predict_match_outcome h a) in
  btts_probability b =
    py_round (Rmin 0.99 ((1 - poisson_pmf 0 hx) * def_factor a) *
              Rmin 0.99 ((1 - poisson_pmf 0 ax) * def_factor h) * 100) 1 /\
  def_factor a = Rmin 1.15 (1 + (xgot_conceded a - 1.0) * 0.1) /\
  def_factor h = Rmin 1.15 (1 + (xgot_conceded h - 1.0) * 0.1) /\
  0 <= btts_probability b <= 98.01 /\
  (btts_probability b >= 50 -> btts_prediction b = "Yes") /\
  (btts_probability b < 50 -> btts_prediction b = "No").
Proof.
  intros hx ax b.
  assert (b = predict_btts hx ax h a) as Hb
    by (unfold b; rewrite predict_match_outcome_unfold; reflexivity).
  destruct (expected_goals_nonneg home_advantage h a ltac:(unfold home_advantage; lra) Hh Ha)
    as [Hx Hy].
  fold hx ax in Hx, Hy.
  pose proof (def_factor_bounds a (proj2 (proj2 (proj2 (proj2 (proj2 (proj2 (proj2 (proj2 Ha))))))))) as Fa.
  pose proof (def_factor_bounds h (proj2 (proj2 (proj2 (proj2 (proj2 (proj2 (proj2 (proj2 Hh))))))))) as Fh.
  pose proof (adjusted_scoring_bounds hx _ Hx Fa) as A1.
  pose proof (adjusted_scoring_bounds ax _ Hy Fh) as A2.
  rewrite Hb. unfold predict_btts. simpl.
  split; [reflexivity|]. split; [reflexivity|]. split; [reflexivity|].
  split.
  - apply py_round1_le_98. split; [|nra].
    apply Rmult_le_pos; [apply Rmult_le_pos|]; lra.
  - split; intros H; destruct (Rge_dec _ _); first [reflexivity | lra].
Qed.

Lemma predict_btts_spec_witness :
  (valid_metrics home_default /\ valid_metrics away_default) /\
  0 <= btts_probability (btts (predict_match_outcome home_default away_default)) <= 98.01.
Proof.
  assert (valid_metrics home_default) as Hh by (unfold valid_metrics; simpl; lra).
  assert (valid_metrics away_default) as Ha by (unfold valid_metrics; simpl; lra).
  split; [split; assumption|].
  destruct (predict_btts_spec home_default away_default Hh Ha) as (_ & _ & _ & Hr & _).
  exact Hr.
Defined.

(** C8: when both expected-goal values are 0 (valid records with [xg = 0]),
    all the Poisson mass is at the cell (0, 0): the engine reports a draw
    probability of 100.0 and home/away win probabilities of 0.0, a BTTS
    probability of 0.0 and the BTTS label "No". *)
Theorem zero_rates_all_draw (h a : TeamMetrics)
    (Hh : valid_metrics h) (Ha : valid_metrics a) (H0h : xg h = 0) (H0a : xg a = 0) :
  let p := predict_match_outcome h a in
  draw (win_probabilities p) = 100 /\
  home_win (win_probabilities p) = 0 /\
  away_win (win_probabilities p) = 0 /\
  btts_probability (btts p) = 0 /\
  btts_prediction (btts p) = "No".
Proof.
  assert (fst (expected_goals_ha home_advantage h a) = 0) as E1.
  { unfold expected_goals_ha.
    destruct (calculate_team_strength h), (calculate_team_strength a).
    simpl. rewrite H0h. ring. }
  assert (snd (expected_goals_ha home_advantage h a) = 0) as E2.
  { unfold expected_goals_ha.
    destruct (calculate_team_strength h), (calculate_team_strength a).
    simpl. rewrite H0a. ring. }
  intros p. unfold p. rewrite predict_match_outcome_unfold. cbv zeta.
  rewrite E1, E2. cbn [win_probabilities btts].
  rewrite calculate_win_probabilities_eq. cbv zeta.
  destruct win_buckets_zero_rates as (B1 & B2 & B3). rewrite B1, B2, B3.
  cbn [home_win draw away_win].
  unfold predict_btts. cbn [btts_probability btts_prediction].
  rewrite poisson_pmf_0, Ropp_0, exp_0.
  assert (forall f, Rmin 0.99 ((1 - 1) * f) = 0) as Z.
  { intros f. replace ((1 - 1) * f) with 0 by ring. unfold Rmin.
    destruct (Rle_dec _ _); lra. }
  rewrite !Z.
  replace (0 / (0 + 1 + 0) * 100) with (IZR 0 / 10) by field.
  replace (1 / (0 + 1 + 0) * 100) with (IZR 1000 / 10) by field.
  replace (0 * 0 * 100) with (IZR 0 / 10) by field.
  rewrite !py_round1_tenths.
  repeat split; try (simpl; lra).
  destruct (Rge_dec _ _); [lra | reflexivity].
Qed.

Lemma zero_rates_all_draw_witness :
  (valid_metrics (mkTeamMetrics 0 0 0 0 0 0 0 0 0) /\
   valid_metrics (mkTeamMetrics 0 0 0 0 0 0 0 0 0)) /\
  draw (win_probabilities (predict_match_outcome (mkTeamMetrics 0 0 0 0 0 0 0 0 0)
                                                 (mkTeamMetrics 0 0 0 0 0 0 0 0 0))) = 100.
Proof.
  assert (valid_metrics (mkTeamMetrics 0 0 0 0 0 0 0 0 0)) as Hv
    by (unfold valid_metrics; simpl; lra).
  split; [split; exact Hv|].
  exact (proj1 (zero_rates_all_draw _ _ Hv Hv eq_refl eq_refl)).
Defined.

(** C1: for valid records the engine's expected goals are
    [homeXG = home.xg * 1.15 * (1 / (awayDefensiveScore + 0.5))] and
    [awayXG = away.xg * (1 / (homeDefensiveScore + 0.5))], with the defensive
    score [0.40 * (1 / (xgot_conceded + 0.1)) + 0.30 * (tackles_rate / 100)
    + 0.30 * (ball_recoveries / 100)]; every output is computed from these
    two values (and the [xgot_conceded] of both records), so the offensive
    statistics, hence the offensive scores, influence nothing. *)
Theorem expected_goals_formula (h a : TeamMetrics)
    (Hh : valid_metrics h) (Ha : valid_metrics a) :
  let home_def := 0.40 * (1 / (xgot_conceded h + 0.1)) + 0.30 * (tackles_rate h / 100)
                  + 0.30 * (ball_recoveries h / 100) in
  let away_def := 0.40 * (1 / (xgot_conceded a + 0.1)) + 0.30 * (tackles_rate a / 100)
                  + 0.30 * (ball_recoveries a / 100) in
  let homeXG := xg h * 1.15 * (1 / (away_def + 0.5)) in
  let awayXG := xg a * (1 / (home_def + 0.5)) in
  predict_match_outcome h a =
    {| win_probabilities := calculate_win_probabilities homeXG awayXG;
       btts := predict_btts homeXG awayXG h a;
       over_under := predict_over_under homeXG awayXG;
       scorelines := predict_scorelines homeXG awayXG;
       expected_goals :=
         {| eg_home := py_round homeXG 2; eg_away := py_round awayXG 2;
            eg_total := py_round (homeXG + awayXG) 2 |} |} /\
  (forall h' a',
     xg h' = xg h -> tackles_rate h' = tackles_rate h ->
     ball_recoveries h' = ball_recoveries h -> xgot_conceded h' = xgot_conceded h ->
     xg a' = xg a -> tackles_rate a' = tackles_rate a ->
     ball_recoveries a' = ball_recoveries a -> xgot_conceded a' = xgot_conceded a ->
     predict_match_outcome h' a' = predict_match_outcome h a).
Proof.
  assert (forall t, snd (calculate_team_strength t) =
            0.40 * (1 / (xgot_conceded t + 0.1)) + 0.30 * (tackles_rate t / 100)
            + 0.30 * (ball_recoveries t / 100)) as Hd.
  { intros t. simpl. unfold dw_xgot_conceded, dw_tackles_rate, dw_ball_recoveries. ring. }
  assert (forall h a, predict_match_outcome h a =
    let home_def := 0.40 * (1 / (xgot_conceded h + 0.1)) + 0.30 * (tackles_rate h / 100)
                    + 0.30 * (ball_recoveries h / 100) in
    let away_def := 0.40 * (1 / (xgot_conceded a + 0.1)) + 0.30 * (tackles_rate a / 100)
                    + 0.30 * (ball_recoveries a / 100) in
    let homeXG := xg h * 1.15 * (1 / (away_def + 0.5)) in
    let awayXG := xg a * (1 / (home_def + 0.5)) in
    {| win_probabilities := calculate_win_probabilities homeXG awayXG;
       btts := predict_btts homeXG awayXG h a;
       over_under := predict_over_under homeXG awayXG;
       scorelines := predict_scorelines homeXG awayXG;
       expected_goals :=
         {| eg_home := py_round homeXG 2; eg_away := py_round awayXG 2;
            eg_total := py_round (homeXG + awayXG) 2 |} |}) as Hf.
  { intros h0 a0. rewrite predict_match_outcome_unfold, expected_goals_ha_eq, !Hd.
    reflexivity. }
  split; [apply Hf|].
  intros h' a' E1 E2 E3 E4 E5 E6 E7 E8.
  rewrite !Hf. cbv zeta. rewrite E1, E2, E3, E4, E5, E6, E7, E8.
  unfold predict_btts, def_factor. rewrite E4, E8. reflexivity.
Qed.

Lemma expected_goals_formula_witness :
  (valid_metrics home_default /\ valid_metrics away_default) /\
  eg_home (expected_goals (predict_match_outcome home_default away_default)) =
  py_round (xg home_default * 1.15 *
            (1 / (0.40 * (1 / (xgot_conceded away_default + 0.1))
                  + 0.30 * (tackles_rate away_default / 100)
                  + 0.30 * (ball_recoveries away_default / 100) + 0.5))) 2.
Proof.
  assert (valid_metrics home_default) as Hh by (unfold valid_metrics; simpl; lra).
  assert (valid_metrics away_default) as Ha by (unfold valid_metrics; simpl; lra).
  split; [split; assumption|].
  rewrite (proj1 (expected_goals_formula home_default away_default Hh Ha)).
  reflexivity.
Defined.

(** A record whose defensive score is exactly 0.5. *)
Lemma small_xg_expected_goals :
  expected_goals_ha home_advantage (mkTeamMetrics 0.004 0 0 0 0 0 0 0 0.7)
    (mkTeamMetrics 0.004 0 0 0 0 0 0 0 0.7) = (0.0046, 0.004).
Proof.
  rewrite expected_goals_ha_eq. simpl.
  unfold dw_xgot_conceded, dw_tackles_rate, dw_ball_recoveries, home_advantage.
  replace (1 / (0.7 + 0.1) * 0.40 + 0 / 100 * 0.30 + 0 / 100 * 0.30 + 0.5) with 1
    by (unfold Q2R; simpl; field).
  f_equal; lra.
Qed.

(** C10: [expected_goals.total] is the 2-decimal rounding of the sum of the
    unrounded expected goals, not the sum of the two rounded fields; for some
    valid inputs it differs from [expected_goals.home + expected_goals.away]. *)
Theorem expected_goals_total_rounding :
  (forall h a,
     let hx := fst (expected_goals_ha home_advantage h a) in
     let ax := snd (expected_goals_ha home_advantage h a) in
     expected_goals (predict_match_outcome h a) =
       {| eg_home := py_round hx 2; eg_away := py_round ax 2;
          eg_total := py_round (hx + ax) 2 |}) /\
  (exists h a, valid_metrics h /\ valid_metrics a /\
     let eg := expected_goals (predict_match_outcome h a) in
     eg_total eg <> eg_home eg + eg_away eg).
Proof.
  split.
  - intros h a. rewrite predict_match_outcome_unfold. reflexivity.
  - exists (mkTeamMetrics 0.004 0 0 0 0 0 0 0 0.7), (mkTeamMetrics 0.004 0 0 0 0 0 0 0 0.7).
    split; [unfold valid_metrics; simpl; lra|].
    split; [unfold valid_metrics; simpl; lra|].
    rewrite predict_match_outcome_unfold, small_xg_expected_goals. simpl.
    rewrite !py_round2_eq.
    rewrite (rint_near 0 (0.0046 * 100)) by lra.
    rewrite (rint_near 0 (0.004 * 100)) by lra.
    rewrite (rint_near 1 ((0.0046 + 0.004) * 100)) by lra.
    lra.
Qed.

(** C7: with the home advantage neutralised (1 instead of 1.15), swapping
    the home and away records swaps [home_win] with [away_win] and the two
    expected-goal fields and leaves [draw] unchanged; equivalently, for all
    rates [a], [b], the win-probability computation on [(a, b)] returns as
    [home_win] the [away_win] of [(b, a)], and the same [draw]. *)
Theorem home_away_swap_symmetry :
  (forall x y,
     home_win (calculate_win_probabilities x y) = away_win (calculate_win_probabilities y x) /\
     draw (calculate_win_probabilities x y) = draw (calculate_win_probabilities y x)) /\
  (forall h a,
     let p := predict_match_outcome_ha 1 h a in
     let q := predict_match_outcome_ha 1 a h in
     home_win (win_probabilities p) = away_win (win_probabilities q) /\
     away_win (win_probabilities p) = home_win (win_probabilities q) /\
     draw (win_probabilities p) = draw (win_probabilities q) /\
     eg_home (expected_goals p) = eg_away (expected_goals q) /\
     eg_away (expected_goals p) = eg_home (expected_goals q)).
Proof.
  split.
  - intros x y. destruct (win_probabilities_swap x y) as (H1 & _ & H3). tauto.
  - intros h a.
    assert (expected_goals_ha 1 a h =
            (snd (expected_goals_ha 1 h a), fst (expected_goals_ha 1 h a))) as E.
    { rewrite !expected_goals_ha_eq. simpl. f_equal; ring. }
    unfold predict_match_outcome_ha. rewrite E.
    destruct (expected_goals_ha 1 h a) as [X Y]. simpl.
    destruct (win_probabilities_swap X Y) as (H1 & H2 & H3).
    repeat split; assumption.
Qed.

(** C4: [_predict_scorelines] enumerates the 36 cells of [0..5] x [0..5] in
    ascending lexicographic order, sorts them stably by descending joint
    Poisson probability and returns exactly three entries ["h-a"] with the
    probability as a percentage rounded to one decimal: the three cells come
    in sorted order (larger probability first, equal probabilities in
    lexicographic order), every other cell ranks after the third, and the
    reported percentages are non-increasing. *)
Theorem predict_scorelines_spec (x y : R) :
  List.length (grid 6) = 36%nat /\
  (forall c, In c (grid 6) <-> (fst c <= 5 /\ snd c <= 5)%nat) /\
  StronglySorted lex_lt (grid 6) /\
  exists p1 p2 p3,
    predict_scorelines x y =
      [scoreline_entry x y p1; scoreline_entry x y p2; scoreline_entry x y p3] /\
    In p1 (grid 6) /\ In p2 (grid 6) /\ In p3 (grid 6) /\
    ranks_before (joint x y) p1 p2 /\ ranks_before (joint x y) p2 p3 /\
    (forall p, In p (grid 6) -> p <> p1 -> p <> p2 -> p <> p3 ->
       ranks_before (joint x y) p3 p) /\
    probability (scoreline_entry x y p1) >= probability (scoreline_entry x y p2) /\
    probability (scoreline_entry x y p2) >= probability (scoreline_entry x y p3).
Proof.
  split; [reflexivity|]. split.
  { intros c. rewrite in_grid. lia. }
  split; [exact grid6_sorted|].
  unfold predict_scorelines, scoreline_probs.
  rewrite sort_desc_map.
  rewrite (sort_desc_ext _ (joint x y)) by (intros [h a]; reflexivity).
  pose proof (sort_desc_perm (joint x y) (grid 6)) as Hp.
  pose proof (sort_desc_sorted (joint x y) lex_lt (grid 6) grid6_sorted) as Hs.
  fold (ranks_before (joint x y)) in Hs.
  pose proof (Permutation_length Hp) as Hl.
  destruct (sort_desc (joint x y) (grid 6)) as [|p1 [|p2 [|p3 rest]]];
    simpl in Hl; try discriminate.
  exists p1, p2, p3.
  inversion Hs as [|? ? Hs1 F1]; subst. inversion Hs1 as [|? ? Hs2 F2]; subst.
  inversion Hs2 as [|? ? Hs3 F3]; subst.
  inversion F1 as [|? ? R12 _]; subst. inversion F2 as [|? ? R23 _]; subst.
  split.
  { destruct p1 as [h1 a1], p2 as [h2 a2], p3 as [h3 a3]. reflexivity. }
  split; [apply (Permutation_in _ (Permutation_sym Hp)); simpl; auto|].
  split; [apply (Permutation_in _ (Permutation_sym Hp)); simpl; auto|].
  split; [apply (Permutation_in _ (Permutation_sym Hp)); simpl; auto|].
  split; [exact R12|]. split; [exact R23|].
  split.
  - intros p Hin N1 N2 N3.
    apply (Permutation_in _ Hp) in Hin. simpl in Hin.
    destruct Hin as [E|[E|[E|Hin]]]; try (exfalso; congruence).
    rewrite Forall_forall in F3. apply F3, Hin.
  - unfold scoreline_entry. cbn [probability].
    assert (forall c d, ranks_before (joint x y) c d ->
              py_round (joint x y d * 100) 1 <= py_round (joint x y c * 100) 1) as M.
    { intros c d [H|[H _]]; apply py_round1_mono; [lra | rewrite H; lra]. }
    split; apply Rle_ge, M; assumption.
Qed.

(** ** Further properties of the engine and of the results page *)

Lemma top3_structure (x y : R) :
  exists p1 p2 p3,
    predict_scorelines x y =
      [scoreline_entry x y p1; scoreline_entry x y p2; scoreline_entry x y p3] /\
    In p1 (grid 6) /\ In p2 (grid 6) /\ In p3 (grid 6) /\
    ranks_before (joint x y) p1 p2 /\ ranks_before (joint x y) p2 p3 /\
    (forall p, In p (grid 6) -> p <> p1 -> p <> p2 -> p <> p3 ->
       ranks_before (joint x y) p3 p).
Proof.
  unfold predict_scorelines, scoreline_probs.
  rewrite sort_desc_map.
  rewrite (sort_desc_ext _ (joint x y)) by (intros [h a]; reflexivity).
  pose proof (sort_desc_perm (joint x y) (grid 6)) as Hp.
  pose proof (sort_desc_sorted (joint x y) lex_lt (grid 6) grid6_sorted) as Hs.
  fold (ranks_before (joint x y)) in Hs.
  pose proof (Permutation_length Hp) as Hl.
  destruct (sort_desc (joint x y) (grid 6)) as [|p1 [|p2 [|p3 rest]]];
    simpl in Hl; try discriminate.
  exists p1, p2, p3.
  inversion Hs as [|? ? Hs1 F1]; subst. inversion Hs1 as [|? ? Hs2 F2]; subst.
  inversion Hs2 as [|? ? Hs3 F3]; subst.
  inversion F1 as [|? ? R12 _]; subst. inversion F2 as [|? ? R23 _]; subst.
  split; [destruct p1, p2, p3; reflexivity|].
  split; [apply (Permutation_in _ (Permutation_sym Hp)); simpl; auto|].
  split; [apply (Permutation_in _ (Permutation_sym Hp)); simpl; auto|].
  split; [apply (Permutation_in _ (Permutation_sym Hp)); simpl; auto|].
  split; [exact R12|]. split; [exact R23|].
  intros p Hin N1 N2 N3.
  apply (Permutation_in _ Hp) in Hin. simpl in Hin.
  destruct Hin as [E|[E|[E|Hin]]]; try (exfalso; congruence).
  rewrite Forall_forall in F3. apply F3, Hin.
Qed.

(** The defensive score of [calculate_team_strength] falls strictly as
    [xgot_conceded] grows, the other defensive statistics being equal. *)
Theorem defensive_score_decreasing (t t' : TeamMetrics)
    (Hc : 0 <= xgot_conceded t) (Hlt : xgot_conceded t < xgot_conceded t')
    (Ht : tackles_rate t' = tackles_rate t) (Hb : ball_recoveries t' = ball_recoveries t) :
  snd (calculate_team_strength t') < snd (calculate_team_strength t).
Proof.
  simpl. rewrite Ht, Hb.
  unfold dw_xgot_conceded, dw_tackles_rate, dw_ball_recoveries.
  assert (/ (xgot_conceded t' + 0.1) < / (xgot_conceded t + 0.1)).
  { apply Rinv_lt_contravar; [apply Rmult_lt_0_compat|]; lra. }
  unfold Rdiv at 1 2. rewrite !Rmult_1_l. lra.
Qed.

Lemma defensive_score_decreasing_witness :
  (0 <= xgot_conceded home_default /\ xgot_conceded home_default < 2 /\
   tackles_rate home_default = tackles_rate home_default /\
   ball_recoveries home_default = ball_recoveries home_default) /\
  snd (calculate_team_strength (mkTeamMetrics 1.5 12 5 1.3 1.0 75.0 70.0 50 2)) <
  snd (calculate_team_strength home_default).
Proof.
  assert (0 <= xgot_conceded home_default) as H1 by (simpl; lra).
  assert (xgot_conceded home_default < xgot_conceded (mkTeamMetrics 1.5 12 5 1.3 1.0 75.0 70.0 50 2))
    as H2 by (simpl; lra).
  split; [simpl; repeat split; lra|].
  exact (defensive_score_decreasing home_default _ H1 H2 eq_refl eq_refl).
Defined.

(** For valid records the expected goals are non-negative and at most
    2.3 times (home) and 2 times (away) the team's own [xg], because the
    opponent's defensive score is positive; the displayed rounded values are
    non-negative. *)
Theorem expected_goals_bounds (h a : TeamMetrics)
    (Hh : valid_metrics h) (Ha : valid_metrics a) :
  let hx := fst (expected_goals_ha home_advantage h a) in
  let ax := snd (expected_goals_ha home_advantage h a) in
  0 <= hx <= 2.3 * xg h /\ 0 <= ax <= 2 * xg a /\
  0 <= eg_home (expected_goals (predict_match_outcome h a)) /\
  0 <= eg_away (expected_goals (predict_match_outcome h a)) /\
  0 <= eg_total (expected_goals (predict_match_outcome h a)).
Proof.
  intros hx ax.
  destruct (expected_goals_nonneg home_advantage h a ltac:(unfold home_advantage; lra) Hh Ha)
    as [Hx Hy]. fold hx ax in Hx, Hy.
  assert (forall d, 0 < d -> 1 / (d + 0.5) <= 2) as Hinv.
  { intros d Hd. unfold Rdiv. rewrite Rmult_1_l.
    replace 2 with (/ 0.5) by (unfold Q2R; simpl; field).
    left. apply Rinv_lt_contravar; [apply Rmult_lt_0_compat|]; lra. }
  pose proof (Hinv _ (defensive_score_pos a Ha)) as Ia.
  pose proof (Hinv _ (defensive_score_pos h Hh)) as Ih.
  pose proof (proj1 Hh) as Xh. pose proof (proj1 Ha) as Xa.
  rewrite predict_match_outcome_unfold. cbv zeta. cbn [expected_goals eg_home eg_away eg_total].
  fold hx ax.
  split; [|split; [|split; [|split]]].
  - split; [exact Hx|]. unfold hx. rewrite expected_goals_ha_eq. cbn [fst].
    unfold home_advantage.
    apply (Rmult_le_compat_l (xg h * 1.15)) in Ia; [|apply Rmult_le_pos; lra].
    lra.
  - split; [exact Hy|]. unfold ax. rewrite expected_goals_ha_eq. cbn [snd].
    apply (Rmult_le_compat_l (xg a)) in Ih; [lra|]. lra.
  - apply py_round2_nonneg, Hx.
  - apply py_round2_nonneg, Hy.
  - apply py_round2_nonneg. lra.
Qed.

Lemma expected_goals_bounds_witness :
  (valid_metrics home_default /\ valid_metrics away_default) /\
  0 <= eg_total (expected_goals (predict_match_outcome home_default away_default)).
Proof.
  assert (valid_metrics home_default) as Hh by (unfold valid_metrics; simpl; lra).
  assert (valid_metrics away_default) as Ha by (unfold valid_metrics; simpl; lra).
  split; [split; assumption|].
  destruct (expected_goals_bounds home_default away_default Hh Ha) as (_ & _ & _ & _ & H).
  exact H.
Defined.

(** Two teams with identical statistics: the home side's expected goals are
    exactly 1.15 times the away side's. *)
Theorem home_advantage_identical_teams (t : TeamMetrics) :
  fst (expected_goals_ha home_advantage t t) =
  1.15 * snd (expected_goals_ha home_advantage t t).
Proof. rewrite expected_goals_ha_eq. simpl. unfold home_advantage. ring. Qed.

(** The home side's expected goals do not decrease when the opponent
    concedes more ([xgot_conceded]), its other defensive statistics equal. *)
Theorem home_expected_goals_opponent_leak (h a a' : TeamMetrics)
    (Hh : valid_metrics h) (Ha : valid_metrics a)
    (Hc : xgot_conceded a <= xgot_conceded a')
    (Ht : tackles_rate a' = tackles_rate a) (Hb : ball_recoveries a' = ball_recoveries a) :
  fst (expected_goals_ha home_advantage h a) <= fst (expected_goals_ha home_advantage h a').
Proof.
  rewrite !expected_goals_ha_eq. simpl fst.
  pose proof (defensive_score_pos a Ha) as Pa.
  assert (snd (calculate_team_strength a') <= snd (calculate_team_strength a)) as D.
  { simpl. rewrite Ht, Hb. unfold dw_xgot_conceded.
    assert (/ (xgot_conceded a' + 0.1) <= / (xgot_conceded a + 0.1)).
    { pose proof (proj2 (proj2 (proj2 (proj2 (proj2 (proj2 (proj2 (proj2 Ha)))))))).
      apply Rinv_le_contravar; lra. }
    unfold Rdiv at 1 3. rewrite !Rmult_1_l. lra. }
  assert (0 < snd (calculate_team_strength a') + 0.5) as Pa'.
  { simpl. rewrite Ht, Hb. simpl in Pa.
    pose proof (proj2 (proj2 (proj2 (proj2 (proj2 (proj2 (proj2 (proj2 Ha)))))))).
    assert (0 < 1 / (xgot_conceded a' + 0.1)).
    { unfold Rdiv. rewrite Rmult_1_l. apply Rinv_0_lt_compat. lra. }
    unfold dw_xgot_conceded, dw_tackles_rate, dw_ball_recoveries in *.
    pose proof (proj1 (proj2 (proj2 (proj2 (proj2 (proj2 (proj2 Ha))))))).
    pose proof (proj1 (proj2 (proj2 (proj2 (proj2 (proj2 (proj2 (proj2 Ha)))))))).
    lra. }
  assert (1 / (snd (calculate_team_strength a) + 0.5) <=
          1 / (snd (calculate_team_strength a') + 0.5)).
  { unfold Rdiv. rewrite !Rmult_1_l. apply Rinv_le_contravar; lra. }
  pose proof (proj1 Hh). unfold home_advantage.
  apply Rmult_le_compat_l; [|assumption]. apply Rmult_le_pos; lra.
Qed.

Lemma home_expected_goals_opponent_leak_witness :
  (valid_metrics home_default /\ valid_metrics away_default /\
   xgot_conceded away_default <= 3) /\
  fst (expected_goals_ha home_advantage home_default away_default) <=
  fst (expected_goals_ha home_advantage home_default
         (mkTeamMetrics 1.2 10 4 1.0 0.8 72.0 68.0 45 3)).
Proof.
  assert (valid_metrics home_default) as Hh by (unfold valid_metrics; simpl; lra).
  assert (valid_metrics away_default) as Ha by (unfold valid_metrics; simpl; lra).
  assert (xgot_conceded away_default <= xgot_conceded (mkTeamMetrics 1.2 10 4 1.0 0.8 72.0 68.0 45 3))
    as Hc by (simpl; lra).
  split; [split; [|split]; [assumption | assumption | simpl; lra]|].
  exact (home_expected_goals_opponent_leak home_default away_default _ Hh Ha Hc eq_refl eq_refl).
Defined.

Lemma py_round1_zero : py_round 0 1 = 0.
Proof.
  pose proof (py_round1_tenths 0) as H.
  replace (IZR 0 / 10) with 0 in H by (simpl; field). exact H.
Qed.

Lemma rmax3_props (x y z : R) :
  let m := Rmax (Rmax x y) z in
  x <= m /\ y <= m /\ z <= m /\ (m = x \/ m = y \/ m = z).
Proof.
  intros m. unfold m, Rmax.
  destruct (Rle_dec x y), (Rle_dec y z), (Rle_dec x z); repeat split; try lra;
    repeat (destruct (Rle_dec _ _)); lra.
Qed.

(** A side whose expected goals are 0 never wins: with [away_xg = 0] the
    away-win percentage is 0, and with [home_xg = 0] the home-win
    percentage is 0, whatever the other (non-negative) rate. *)
Theorem zero_rate_side_never_wins (x : R) (Hx : 0 <= x) :
  away_win (calculate_win_probabilities x 0) = 0 /\
  home_win (calculate_win_probabilities 0 x) = 0.
Proof.
  rewrite !calculate_win_probabilities_eq. cbv zeta. cbn [home_win away_win].
  rewrite (sumR_map_ext (away_win_cell x 0) (fun _ => 0)).
  2:{ intros [h a] _. unfold away_win_cell, joint. cbn [fst snd].
      destruct (Nat.ltb h a) eqn:E; [|reflexivity].
      apply Nat.ltb_lt in E. rewrite (poisson_pmf_zero_rate a).
      destruct a; [lia|]. simpl. ring. }
  rewrite (sumR_map_ext (home_win_cell 0 x) (fun _ => 0)).
  2:{ intros [h a] _. unfold home_win_cell, joint. cbn [fst snd].
      destruct (Nat.ltb a h) eqn:E; [|reflexivity].
      apply Nat.ltb_lt in E. rewrite (poisson_pmf_zero_rate h).
      destruct h; [lia|]. simpl. ring. }
  rewrite !sumR_map_zero. unfold Rdiv. rewrite !Rmult_0_l. split; apply py_round1_zero.
Qed.

Lemma zero_rate_side_never_wins_witness :
  0 <= 1.3 /\ away_win (calculate_win_probabilities 1.3 0) = 0.
Proof.
  assert (0 <= 1.3) as H by lra. split; [exact H|].
  exact (proj1 (zero_rate_side_never_wins 1.3 H)).
Defined.

(** For a non-negative total rate, every over/under entry carries an over
    and an under percentage within [0, 100]. *)
Theorem over_under_percentages_bounded (hx ax : R) (H : 0 <= hx + ax) :
  forall k e, In (k, e) (predict_over_under hx ax) ->
    0 <= over e <= 100 /\ 0 <= under e <= 100.
Proof.
  intros k e Hin. unfold predict_over_under in Hin.
  apply in_map_iff in Hin as [t [Et _]].
  unfold over_under_entry in Et. injection Et as _ <-. cbn [over under].
  pose proof (poisson_cdf_le_1 (threshold_of t - 0.5) _ H).
  pose proof (poisson_cdf_nonneg (threshold_of t - 0.5) _ H).
  assert (IZR 0 / 10 <= over_prob t (hx + ax) * 100 <= IZR 1000 / 10) as Ho
    by (unfold over_prob; simpl; lra).
  apply py_round1_range in Ho.
  assert (IZR 0 / 10 <= 100 - py_round (over_prob t (hx + ax) * 100) 1 <= IZR 1000 / 10)
    as Hu by (simpl in *; lra).
  apply py_round1_range in Hu. simpl in Ho, Hu. lra.
Qed.

Lemma over_under_percentages_bounded_witness :
  0 <= 1.5 + 1.2 /\
  forall k e, In (k, e) (predict_over_under 1.5 1.2) ->
    0 <= over e <= 100 /\ 0 <= under e <= 100.
Proof.
  assert (0 <= 1.5 + 1.2) as H by lra.
  split; [exact H|]. exact (over_under_percentages_bounded 1.5 1.2 H).
Defined.

(** If either side's expected goals are 0, the both-teams-to-score
    probability is 0 and the prediction is "No", whatever the defensive
    factors. *)
Theorem btts_zero_rate (hx ax : R) (h a : TeamMetrics) (H : hx = 0 \/ ax = 0) :
  btts_probability (predict_btts hx ax h a) = 0 /\
  btts_prediction (predict_btts hx ax h a) = "No".
Proof.
  unfold predict_btts. cbv zeta. cbn [btts_probability btts_prediction].
  assert (Rmin 0.99 ((1 - poisson_pmf 0 hx) * def_factor a) *
          Rmin 0.99 ((1 - poisson_pmf 0 ax) * def_factor h) * 100 = 0) as E.
  { rewrite !poisson_pmf_0.
    destruct H as [-> | ->]; rewrite Ropp_0, exp_0;
      replace (1 - 1) with 0 by ring; rewrite Rmult_0_l, (Rmin_right 0.99 0) by lra; ring. }
  rewrite E, py_round1_zero.
  destruct (Rge_dec 0 50); [lra|]. split; reflexivity.
Qed.

Lemma btts_zero_rate_witness :
  (0 = 0 \/ 1.2 = 0) /\
  btts_probability (predict_btts 0 1.2 home_default away_default) = 0.
Proof.
  assert (0 = 0 \/ 1.2 = 0) as H by (left; reflexivity).
  split; [exact H|]. exact (proj1 (btts_zero_rate 0 1.2 home_default away_default H)).
Defined.

(** The results page names an outcome whose value is the largest of the
    three; on a tie the home win is preferred, then the draw. *)
Theorem most_likely_outcome_is_max (w : WinProbabilities) :
  let r := most_likely_outcome w in
  outcome_value w (fst r) = snd r /\
  home_win w <= snd r /\ draw w <= snd r /\ away_win w <= snd r /\
  (fst r <> HomeWin -> home_win w < snd r) /\
  (fst r = AwayWin -> draw w < snd r).
Proof.
  intros r.
  destruct (rmax3_props (home_win w) (draw w) (away_win w)) as (H1 & H2 & H3 & H4).
  unfold r, most_likely_outcome.
  destruct (Req_EM_T _ (home_win w)) as [E1|N1];
    [|destruct (Req_EM_T _ (draw w)) as [E2|N2]]; cbn [fst snd outcome_value].
  - split; [lra|]. split; [lra|]. split; [lra|]. split; [lra|]. split.
    + intros C; exfalso; apply C; reflexivity.
    + discriminate.
  - split; [lra|]. split; [lra|]. split; [lra|]. split; [lra|]. split.
    + intros _. destruct H1 as [H1|H1]; [exact H1 | exfalso; apply N1; symmetry; exact H1].
    + discriminate.
  - destruct H4 as [E|[E|E]]; [exfalso; apply N1; exact E | exfalso; apply N2; exact E|].
    split; [lra|]. split; [lra|]. split; [lra|]. split; [lra|]. split.
    + intros _. destruct H1 as [H1|H1]; [exact H1 | exfalso; apply N1; symmetry; exact H1].
    + intros _. destruct H2 as [H2|H2]; [exact H2 | exfalso; apply N2; symmetry; exact H2].
Qed.

(** For non-negative expected goals, the headline probability of the
    predicted outcome is at least 33.3 and at most 100. *)
Theorem headline_probability_range (hx ax : R) (Hh : 0 <= hx) (Ha : 0 <= ax) :
  33.3 <= snd (most_likely_outcome (calculate_win_probabilities hx ax)) <= 100.
Proof.
  pose proof (win_probabilities_bounds hx ax Hh Ha) as B. cbv zeta in B.
  set (w := calculate_win_probabilities hx ax) in *.
  assert (snd (most_likely_outcome w) = Rmax (Rmax (home_win w) (draw w)) (away_win w)) as ->.
  { unfold most_likely_outcome.
    destruct (Req_EM_T _ _); [reflexivity|]. destruct (Req_EM_T _ _); reflexivity. }
  destruct (rmax3_props (home_win w) (draw w) (away_win w)) as (H1 & H2 & H3 & H4).
  destruct B as (B1 & B2 & B3 & B4).
  assert (- 0.1 <= home_win w + draw w + away_win w - 100) as B5
    by (pose proof (Rle_abs (- (home_win w + draw w + away_win w - 100)));
        rewrite Rabs_Ropp in *; lra).
  split; [lra|]. destruct H4 as [->|[->| ->]]; lra.
Qed.

Lemma headline_probability_range_witness :
  (0 <= 1.5 /\ 0 <= 1.2) /\
  33.3 <= snd (most_likely_outcome (calculate_win_probabilities 1.5 1.2)) <= 100.
Proof.
  assert (0 <= 1.5) as H1 by lra. assert (0 <= 1.2) as H2 by lra.
  split; [split; assumption|]. exact (headline_probability_range 1.5 1.2 H1 H2).
Defined.

(** For non-negative expected goals, each of the three scorelines carries a
    percentage within [0, 100]. *)
Theorem scoreline_percentages_bounded (hx ax : R) (Hh : 0 <= hx) (Ha : 0 <= ax) :
  forall s, In s (predict_scorelines hx ax) -> 0 <= probability s <= 100.
Proof.
  destruct (top3_structure hx ax) as (p1 & p2 & p3 & E & _).
  rewrite E. intros s Hs.
  assert (forall c, 0 <= probability (scoreline_entry hx ax c) <= 100) as B.
  { intros c. unfold scoreline_entry. cbn [probability].
    pose proof (joint_nonneg hx ax c Hh Ha).
    assert (joint hx ax c <= 1).
    { unfold joint.
      pose proof (poisson_pmf_le_1 (fst c) hx Hh). pose proof (poisson_pmf_le_1 (snd c) ax Ha).
      pose proof (poisson_pmf_nonneg (fst c) hx Hh).
      rewrite <- (Rmult_1_r 1). apply Rmult_le_compat; auto; apply poisson_pmf_nonneg; auto. }
    assert (IZR 0 / 10 <= joint hx ax c * 100 <= IZR 1000 / 10) as R by (simpl; lra).
    apply py_round1_range in R. simpl in R. lra. }
  simpl in Hs. destruct Hs as [<-|[<-|[<-|[]]]]; apply B.
Qed.

Lemma scoreline_percentages_bounded_witness :
  (0 <= 1.5 /\ 0 <= 1.2) /\
  forall s, In s (predict_scorelines 1.5 1.2) -> 0 <= probability s <= 100.
Proof.
  assert (0 <= 1.5) as H1 by lra. assert (0 <= 1.2) as H2 by lra.
  split; [split; assumption|]. exact (scoreline_percentages_bounded 1.5 1.2 H1 H2).
Defined.

(** When the away side's expected goals are 0 and the home side's are
    positive, the three scorelines all give the away side 0 goals. *)
Theorem scorelines_away_shutout (hx : R) (Hh : 0 < hx) :
  exists h1 h2 h3,
    map scoreline (predict_scorelines hx 0) =
      [format_scoreline h1 0; format_scoreline h2 0; format_scoreline h3 0].
Proof.
  destruct (top3_structure hx 0) as (p1 & p2 & p3 & E & I1 & I2 & I3 & R12 & R23 & Rest).
  assert (forall c, 0 < joint hx 0 c -> snd c = 0%nat) as Z.
  { intros [h a] Hc. unfold joint in Hc. cbn [fst snd] in *.
    rewrite poisson_pmf_zero_rate in Hc. destruct a; [reflexivity|].
    simpl in Hc. lra. }
  assert (forall k, 0 < joint hx 0 (k, 0%nat)) as P.
  { intros k. unfold joint. cbn [fst snd]. rewrite poisson_pmf_zero_rate. simpl.
    rewrite Rmult_1_r. apply poisson_pmf_pos, Hh. }
  assert (Hdec : forall p q : nat * nat, {p = q} + {p <> q})
    by (decide equality; apply Nat.eq_dec).
  assert (0 < joint hx 0 p3) as P3.
  { destruct (Rlt_le_dec 0 (joint hx 0 p3)) as [|N]; [assumption|exfalso].
    assert (forall k, (k < 4)%nat -> (k, 0%nat) = p1 \/ (k, 0%nat) = p2 \/ (k, 0%nat) = p3) as M.
    { intros k Hk.
      destruct (Hdec (k, 0%nat) p1) as [|N1]; [left; assumption|].
      destruct (Hdec (k, 0%nat) p2) as [|N2]; [right; left; assumption|].
      destruct (Hdec (k, 0%nat) p3) as [|N3]; [right; right; assumption|].
      exfalso.
      assert (In (k, 0%nat) (grid 6)) as G by (apply in_grid; simpl; lia).
      pose proof (P k) as Pk.
      destruct (Rest _ G N1 N2 N3) as [L|[L _]]; lra. }
    destruct (M 0%nat ltac:(lia)) as [A0|[A0|A0]];
    destruct (M 1%nat ltac:(lia)) as [A1|[A1|A1]];
    destruct (M 2%nat ltac:(lia)) as [A2|[A2|A2]];
    destruct (M 3%nat ltac:(lia)) as [A3|[A3|A3]];
      subst; congruence. }
  assert (joint hx 0 p3 <= joint hx 0 p2) by (destruct R23 as [L|[L _]]; lra).
  assert (joint hx 0 p2 <= joint hx 0 p1) by (destruct R12 as [L|[L _]]; lra).
  exists (fst p1), (fst p2), (fst p3).
  rewrite E. simpl. unfold scoreline_entry. cbn [scoreline].
  rewrite (Z p1), (Z p2), (Z p3) by lra. reflexivity.
Qed.

Lemma scorelines_away_shutout_witness :
  0 < 1.5 /\
  exists h1 h2 h3,
    map scoreline (predict_scorelines 1.5 0) =
      [format_scoreline h1 0; format_scoreline h2 0; format_scoreline h3 0].
Proof.
  assert (0 < 1.5) as H by lra. split; [exact H|]. exact (scorelines_away_shutout 1.5 H).
Defined.

Lemma over_prob_closed (mu : R) :
  over_prob 15 mu = 1 - exp (- mu) * (1 + mu) /\
  over_prob 25 mu = 1 - exp (- mu) * (1 + mu + mu ^ 2 / 2) /\
  over_prob 35 mu = 1 - exp (- mu) * (1 + mu + mu ^ 2 / 2 + mu ^ 3 / 6).
Proof.
  destruct (over_prob_expand mu) as (E1 & E2 & E3).
  rewrite E1, E2, E3. unfold poisson_pmf. simpl. repeat split; field.
Qed.

Lemma exp_ge_poly (d : R) :
  0 <= d ->
  1 + d <= exp d /\ 1 + d + d ^ 2 / 2 <= exp d /\ 1 + d + d ^ 2 / 2 + d ^ 3 / 6 <= exp d.
Proof.
  intros Hd.
  pose proof (exp_partial_sum_le d 1 Hd) as E1.
  pose proof (exp_partial_sum_le d 2 Hd) as E2.
  pose proof (exp_partial_sum_le d 3 Hd) as E3.
  replace (sum_f_R0 (fun i => / INR (fact i) * d ^ i) 1) with (1 + d) in E1 by (simpl; field).
  replace (sum_f_R0 (fun i => / INR (fact i) * d ^ i) 2) with (1 + d + d ^ 2 / 2) in E2
    by (simpl; field).
  replace (sum_f_R0 (fun i => / INR (fact i) * d ^ i) 3)
    with (1 + d + d ^ 2 / 2 + d ^ 3 / 6) in E3 by (simpl; field).
  tauto.
Qed.

(** [exp(-mu) * P(mu)] does not increase in [mu] when [P(m + d) <= exp d * P(m)]. *)
Lemma exp_neg_poly_antitone (P : R -> R) (mu nu : R) :
  0 <= mu -> mu <= nu ->
  (forall m d, 0 <= m -> 0 <= d -> P (m + d) <= exp d * P m) ->
  exp (- nu) * P nu <= exp (- mu) * P mu.
Proof.
  intros Hm Hmn HP.
  replace nu with (mu + (nu - mu)) by ring.
  pose proof (HP mu (nu - mu) Hm ltac:(lra)) as H.
  replace (- (mu + (nu - mu))) with (- mu + - (nu - mu)) by ring.
  rewrite exp_plus.
  pose proof (exp_pos (- mu)). pose proof (exp_pos (- (nu - mu))).
  pose proof (exp_neg_mul_exp (nu - mu)).
  apply Rle_trans with (exp (- mu) * exp (- (nu - mu)) * (exp (nu - mu) * P mu)).
  - apply Rmult_le_compat_l; [|exact H]. left; apply Rmult_lt_0_compat; assumption.
  - replace (exp (- mu) * exp (- (nu - mu)) * (exp (nu - mu) * P mu))
      with (exp (- mu) * P mu * (exp (- (nu - mu)) * exp (nu - mu))) by ring.
    rewrite H2. lra.
Qed.

Lemma over_prob_monotone (t : nat) (mu nu : R) :
  In t thresholds_tenths -> 0 <= mu -> mu <= nu -> over_prob t mu <= over_prob t nu.
Proof.
  intros Ht Hm Hmn.
  destruct (over_prob_closed mu) as (A1 & A2 & A3).
  destruct (over_prob_closed nu) as (B1 & B2 & B3).
  assert (forall m d, 0 <= m -> 0 <= d -> 0 <= m * d /\ 0 <= m * d * (m * d)) as Pos.
  { intros m d Hm' Hd. split; [apply Rmult_le_pos; auto|].
    apply Rmult_le_pos; apply Rmult_le_pos; auto. }
  simpl in Ht. destruct Ht as [<-|[<-|[<-|[]]]].
  - rewrite A1, B1.
    pose proof (exp_neg_poly_antitone (fun x => 1 + x) mu nu Hm Hmn) as K.
    cbv beta in K. enough (exp (- nu) * (1 + nu) <= exp (- mu) * (1 + mu)) by lra.
    apply K. intros m d Hm' Hd. destruct (exp_ge_poly d Hd) as (E & _).
    destruct (Pos m d Hm' Hd). apply Rle_trans with ((1 + d) * (1 + m)); [nra|].
    apply Rmult_le_compat_r; lra.
  - rewrite A2, B2.
    pose proof (exp_neg_poly_antitone (fun x => 1 + x + x ^ 2 / 2) mu nu Hm Hmn) as K.
    cbv beta in K. enough (exp (- nu) * (1 + nu + nu ^ 2 / 2) <=
                           exp (- mu) * (1 + mu + mu ^ 2 / 2)) by lra.
    apply K. intros m d Hm' Hd. destruct (exp_ge_poly d Hd) as (_ & E & _).
    destruct (Pos m d Hm' Hd).
    apply Rle_trans with ((1 + d + d ^ 2 / 2) * (1 + m + m ^ 2 / 2)); [nra|].
    apply Rmult_le_compat_r; [nra | lra].
  - rewrite A3, B3.
    pose proof (exp_neg_poly_antitone (fun x => 1 + x + x ^ 2 / 2 + x ^ 3 / 6) mu nu Hm Hmn)
      as K.
    cbv beta in K. enough (exp (- nu) * (1 + nu + nu ^ 2 / 2 + nu ^ 3 / 6) <=
                           exp (- mu) * (1 + mu + mu ^ 2 / 2 + mu ^ 3 / 6)) by lra.
    apply K. intros m d Hm' Hd. destruct (exp_ge_poly d Hd) as (_ & _ & E).
    destruct (Pos m d Hm' Hd).
    apply Rle_trans with ((1 + d + d ^ 2 / 2 + d ^ 3 / 6) * (1 + m + m ^ 2 / 2 + m ^ 3 / 6));
      [nra|].
    apply Rmult_le_compat_r; [|lra].
    assert (0 <= m ^ 3) by (apply pow_le; lra). nra.
Qed.

(** The over percentages, for each of the three thresholds, do not decrease
    as the total expected goals grow; an "Over" call stays "Over". *)
Theorem over_under_monotone_in_rate (hx ax hx' ax' : R)
    (H0 : 0 <= hx + ax) (H1 : hx + ax <= hx' + ax') :
  Forall2 (fun e e' => fst e = fst e' /\ over (snd e) <= over (snd e') /\
             (ou_prediction (snd e) = "Over" -> ou_prediction (snd e') = "Over"))
    (predict_over_under hx ax) (predict_over_under hx' ax').
Proof.
  assert (forall t, In t thresholds_tenths ->
    let e := over_under_entry (hx + ax) t in let e' := over_under_entry (hx' + ax') t in
    fst e = fst e' /\ over (snd e) <= over (snd e') /\
    (ou_prediction (snd e) = "Over" -> ou_prediction (snd e') = "Over")) as K.
  { intros t Ht. unfold over_under_entry. cbn [fst snd over ou_prediction].
    pose proof (over_prob_monotone t _ _ Ht H0 H1) as M.
    assert (py_round (over_prob t (hx + ax) * 100) 1 <=
            py_round (over_prob t (hx' + ax') * 100) 1) as R
      by (apply py_round1_mono; lra).
    split; [reflexivity|]. split; [exact R|].
    destruct (Rge_dec (py_round (over_prob t (hx + ax) * 100) 1) 50);
      [|intros E; discriminate E].
    destruct (Rge_dec (py_round (over_prob t (hx' + ax') * 100) 1) 50);
      [reflexivity | lra]. }
  unfold predict_over_under, thresholds_tenths. simpl map.
  repeat (apply Forall2_cons; [apply K; simpl; auto|]). apply Forall2_nil.
Qed.

Lemma over_under_monotone_in_rate_witness :
  (0 <= 1.5 + 1.2 /\ 1.5 + 1.2 <= 2.0 + 1.2) /\
  Forall2 (fun e e' => fst e = fst e' /\ over (snd e) <= over (snd e') /\
             (ou_prediction (snd e) = "Over" -> ou_prediction (snd e') = "Over"))
    (predict_over_under 1.5 1.2) (predict_over_under 2.0 1.2).
Proof.
  assert (0 <= 1.5 + 1.2) as H0 by lra. assert (1.5 + 1.2 <= 2.0 + 1.2) as H1 by lra.
  split; [split; assumption|]. exact (over_under_monotone_in_rate 1.5 1.2 2.0 1.2 H0 H1).
Defined.

(** The whole prediction depends on a team's record only through [xg],
    [tackles_rate], [ball_recoveries] and [xgot_conceded]: shots, shots on
    target, [xgot], [xa] and [passes_rate] feed only the offensive score,
    which is never used. *)
Theorem prediction_ignores_attacking_stats (h h' a a' : TeamMetrics)
    (Hxg : xg h' = xg h) (Ht : tackles_rate h' = tackles_rate h)
    (Hb : ball_recoveries h' = ball_recoveries h) (Hc : xgot_conceded h' = xgot_conceded h)
    (Axg : xg a' = xg a) (At : tackles_rate a' = tackles_rate a)
    (Ab : ball_recoveries a' = ball_recoveries a) (Ac : xgot_conceded a' = xgot_conceded a) :
  predict_match_outcome h' a' = predict_match_outcome h a.
Proof.
  assert (snd (calculate_team_strength h') = snd (calculate_team_strength h)) as Dh
    by (simpl; rewrite Ht, Hb, Hc; reflexivity).
  assert (snd (calculate_team_strength a') = snd (calculate_team_strength a)) as Da
    by (simpl; rewrite At, Ab, Ac; reflexivity).
  assert (expected_goals_ha home_advantage h' a' = expected_goals_ha home_advantage h a) as Eg
    by (rewrite !expected_goals_ha_eq, Dh, Da, Hxg, Axg; reflexivity).
  assert (forall hx ax, predict_btts hx ax h' a' = predict_btts hx ax h a) as Eb.
  { intros hx ax. unfold predict_btts, def_factor. rewrite Hc, Ac. reflexivity. }
  rewrite !predict_match_outcome_unfold. cbv zeta. rewrite Eg, !Eb. reflexivity.
Qed.

Lemma prediction_ignores_attacking_stats_witness :
  let h' := mkTeamMetrics 1.5 20 9 2.4 1.7 88.0 70.0 50 1.0 in
  let a' := mkTeamMetrics 1.2 3 1 0.2 0.1 40.0 68.0 45 1.2 in
  (xg h' = xg home_default /\ xg a' = xg away_default) /\
  predict_match_outcome h' a' = predict_match_outcome home_default away_default.
Proof.
  intros h' a'. split; [split; reflexivity|].
  exact (prediction_ignores_attacking_stats home_default h' away_default a'
           eq_refl eq_refl eq_refl eq_refl eq_refl eq_refl eq_refl eq_refl).
Defined.

Lemma adjusted_scoring_monotone (mu mu' f : R) :
  0 <= mu -> mu <= mu' -> 0.9 <= f <= 1.15 ->
  Rmin 0.99 ((1 - poisson_pmf 0 mu) * f) <= Rmin 0.99 ((1 - poisson_pmf 0 mu') * f).
Proof.
  intros Hm Hmm Hf. rewrite !poisson_pmf_0.
  assert (exp (- mu') <= exp (- mu)) as E.
  { destruct Hmm as [Hlt|Heq]; [left; apply exp_increasing; lra | rewrite Heq; lra]. }
  assert ((1 - exp (- mu)) * f <= (1 - exp (- mu')) * f) as M
    by (apply Rmult_le_compat_r; lra).
  unfold Rmin. destruct (Rle_dec _ _), (Rle_dec _ _); lra.
Qed.

(** For valid records, the both-teams-to-score percentage does not decrease
    when either side's expected goals grow. *)
Theorem btts_monotone_in_rates (hx ax hx' ax' : R) (h a : TeamMetrics)
    (Hh : valid_metrics h) (Ha : valid_metrics a)
    (H0 : 0 <= hx) (H1 : hx <= hx') (A0 : 0 <= ax) (A1 : ax <= ax') :
  btts_probability (predict_btts hx ax h a) <= btts_probability (predict_btts hx' ax' h a).
Proof.
  unfold predict_btts. cbv zeta. cbn [btts_probability].
  apply py_round1_mono. apply Rmult_le_compat_r; [lra|].
  pose proof (def_factor_bounds h (proj2 (proj2 (proj2 (proj2 (proj2 (proj2 (proj2 (proj2 Hh)))))))))
    as Fh.
  pose proof (def_factor_bounds a (proj2 (proj2 (proj2 (proj2 (proj2 (proj2 (proj2 (proj2 Ha)))))))))
    as Fa.
  pose proof (adjusted_scoring_bounds hx _ H0 Fa) as B1.
  pose proof (adjusted_scoring_bounds ax _ A0 Fh) as B2.
  apply Rmult_le_compat; try lra.
  - apply adjusted_scoring_monotone; assumption.
  - apply adjusted_scoring_monotone; assumption.
Qed.

Lemma btts_monotone_in_rates_witness :
  (valid_metrics home_default /\ valid_metrics away_default /\ 0 <= 1.0 <= 1.5 /\ 0 <= 1.2 <= 1.2) /\
  btts_probability (predict_btts 1.0 1.2 home_default away_default) <=
  btts_probability (predict_btts 1.5 1.2 home_default away_default).
Proof.
  assert (valid_metrics home_default) as Hh by (unfold valid_metrics; simpl; lra).
  assert (valid_metrics away_default) as Ha by (unfold valid_metrics; simpl; lra).
  assert (0 <= 1.0) as H0 by lra. assert (1.0 <= 1.5) as H1 by lra.
  assert (0 <= 1.2) as A0 by lra. assert (1.2 <= 1.2) as A1 by lra.
  split; [split; [exact Hh | split; [exact Ha | split; split; assumption]]|].
  exact (btts_monotone_in_rates 1.0 1.2 1.5 1.2 home_default away_default Hh Ha H0 H1 A0 A1).
Defined.
